(** * ComfyUI-server: the generation service ([src/api/service.py])

    A shallow embedding of [Service.text2img] and [Service.img2img] together
    with the Python standard-library functions they call
    ([dict.get], [str], [base64.b64decode], [string.Template.substitute],
    [json.loads]) and the [try]/[finally] statement.

    Conventions.
    - A Python [str] is a [string] holding its UTF-8 bytes; a Python [bytes]
      is a [list byte].  Every character the modelled functions inspect
      (the dollar sign, braces, identifier characters, JSON punctuation, the
      base64 alphabet) is ASCII, and no byte of a multi-byte UTF-8 sequence
      is ASCII, so scanning bytes and scanning code points agree.
    - A Python call either returns a value or raises: [outcome].
    - The three coroutines of the backend client ([comfy.ComfyServer]) are
      awaited one after the other; they are the methods of the class
      [ComfyServer] below and act on an abstract backend state.  Every call
      made to the client is appended to a log, so that "which backend calls
      happen, in which order, with which arguments" is a property of the
      final log. *)

From Stdlib Require Import ZArith NArith Ascii String List Bool Lia.
From Stdlib.Strings Require Import Byte.
From stdpp Require Import base option list gmap strings pretty.

Local Open Scope Z_scope.

(** ** Python values, exceptions and call outcomes *)

(** The exceptions that the modelled code can raise.  [BinasciiError] is
    [binascii.Error] and [JSONDecodeError] is [json.JSONDecodeError] (both
    are subclasses of [ValueError] in Python; the service has no [except]
    clause, so the subclass relation is never observed).  [ClientError]
    stands for whatever the backend client raises on a transport or backend
    failure. *)
Inductive exn : Type :=
| TypeError
| ValueError
| KeyError (key : string)
| BinasciiError
| JSONDecodeError
| RecursionError
| ClientError (msg : string).

Inductive outcome (A : Type) : Type :=
| Return (a : A)
| Raise (e : exn).
Arguments Return {A} a.
Arguments Raise {A} e.

(** The values a request parameter can hold: [None], a [bool], an [int], a
    [str] or a [bytes] object.  ([bytearray] and [memoryview], the other
    bytes-like types, and containers are not modelled.) *)
Inductive pyval : Type :=
| PNone
| PBool (b : bool)
| PInt (z : Z)
| PStr (s : string)
| PBytes (data : list byte).

(** [repr] of a [bytes] object, which is also its [str]: the letter [b], a
    quote (an apostrophe, or a double quote when the data holds an
    apostrophe and no double quote), the bytes with the quote and the
    backslash escaped, tab, line feed and carriage return as [\t], [\n],
    [\r], every other byte outside the printable ASCII range as [\x] and
    two lower-case hexadecimal digits, and the quote again. *)
Definition hexdigit (n : N) : ascii :=
  if (n <? 10)%N then ascii_of_N (48 + n) else ascii_of_N (87 + n).

Definition bytes_quote (data : list byte) : ascii :=
  let has (n : N) := existsb (fun b => (Byte.to_N b =? n)%N) data in
  if has 39%N && negb (has 34%N) then ascii_of_N 34 else ascii_of_N 39.

Definition repr_byte (quote : ascii) (b : byte) : string :=
  let c := ascii_of_byte b in
  let n := N_of_ascii c in
  if Ascii.eqb c quote || (n =? 92)%N then String (ascii_of_N 92) (String c EmptyString)
  else if (n =? 9)%N then "\t"
  else if (n =? 10)%N then "\n"
  else if (n =? 13)%N then "\r"
  else if ((n <? 32) || (127 <=? n))%N then
    String (ascii_of_N 92)
      (String "x" (String (hexdigit (n / 16)) (String (hexdigit (n mod 16)) EmptyString)))
  else String c EmptyString.

Definition bytes_repr (data : list byte) : string :=
  let quote := bytes_quote data in
  String "b"
    (String quote
       (fold_right (fun b rest => String.append (repr_byte quote b) rest)
          (String quote EmptyString) data)).

(** [str(v)].  The interpreter's limit on the digits of an [int] turned into
    text (4300 by default since Python 3.11, a [ValueError] beyond it) is
    not modelled; nothing below is stated of an [int] of that size. *)
Definition str (v : pyval) : string :=
  match v with
  | PNone => "None"
  | PBool true => "True"
  | PBool false => "False"
  | PInt z => pretty z
  | PStr s => s
  | PBytes data => bytes_repr data
  end.

(** [d.get(key)]: the value, or [None] when the key is absent. *)
Definition dict_get (d : gmap string pyval) (key : string) : pyval :=
  default PNone (d !! key).

(** Truthiness of a Python [str]: the empty string is false. *)
Definition truthy (s : string) : bool :=
  match s with
  | EmptyString => false
  | String _ _ => true
  end.

(** ** [base64.b64decode] *)

Module base64.

(** [binascii]'s decoding table: the 6-bit value of a character of the
    standard alphabet, [None] for every other character. *)
Definition table_a2b_base64 (c : ascii) : option N :=
  let n := N_of_ascii c in
  if ((65 <=? n) && (n <=? 90))%N then Some (n - 65)%N
  else if ((97 <=? n) && (n <=? 122))%N then Some (n - 71)%N
  else if ((48 <=? n) && (n <=? 57))%N then Some (n + 4)%N
  else if (n =? 43)%N then Some 62%N
  else if (n =? 47)%N then Some 63%N
  else None.

Definition BASE64_PAD : ascii := "="%char.

(** An [unsigned char] store. *)
Definition to_uchar (n : N) : byte :=
  byte_of_ascii (ascii_of_N (n mod 256)).

(** The loop state of [binascii.a2b_base64]: position inside the current
    group of four characters, the bits left over from the previous
    character, the number of pad characters seen since the last data
    character, and the output so far. *)
Record a2b_state : Type := A2B {
  quad_pos : N;
  leftchar : N;
  pads : N;
  bin_data : list byte
}.

(** One data character [this_ch] (already translated by the table). *)
Definition a2b_data (st : a2b_state) (this_ch : N) : a2b_state :=
  match quad_pos st with
  | 0%N => A2B 1 this_ch 0 (bin_data st)
  | 1%N => A2B 2 (N.land this_ch 15) 0
             (bin_data st ++
              [to_uchar (N.lor (N.shiftl (leftchar st) 2) (N.shiftr this_ch 4))])
  | 2%N => A2B 3 (N.land this_ch 3) 0
             (bin_data st ++
              [to_uchar (N.lor (N.shiftl (leftchar st) 4) (N.shiftr this_ch 2))])
  | _ => A2B 0 0 0
             (bin_data st ++
              [to_uchar (N.lor (N.shiftl (leftchar st) 6) this_ch)])
  end.

(** [binascii.a2b_base64(data, strict_mode=False)]: characters outside the
    alphabet are skipped, a complete pad sequence ends the decoding (what
    follows it is ignored), and an incomplete final group raises
    [binascii.Error]. *)
Fixpoint a2b_loop (data : string) (st : a2b_state) : outcome (list byte) :=
  match data with
  | EmptyString =>
      if (quad_pos st =? 0)%N then Return (bin_data st)
      else Raise BinasciiError
  | String c rest =>
      if Ascii.eqb c BASE64_PAD then
        if (2 <=? quad_pos st)%N then
          if (4 <=? quad_pos st + (pads st + 1))%N then Return (bin_data st)
          else a2b_loop rest
                 (A2B (quad_pos st) (leftchar st) (pads st + 1) (bin_data st))
        else a2b_loop rest st
      else
        match table_a2b_base64 c with
        | None => a2b_loop rest st
        | Some this_ch => a2b_loop rest (a2b_data st this_ch)
        end
  end.

Definition a2b_base64 (data : string) : outcome (list byte) :=
  a2b_loop data (A2B 0 0 0 []).

Fixpoint isascii (s : string) : bool :=
  match s with
  | EmptyString => true
  | String c rest => (N_of_ascii c <? 128)%N && isascii rest
  end.

(** [base64.b64decode(s)] with the default [validate=False]: a [str]
    argument must be ASCII ([ValueError] otherwise) and a [bytes] argument
    is decoded as it is; an argument that is neither bytes-like nor a
    string is a [TypeError]. *)
Definition b64decode (s : pyval) : outcome (list byte) :=
  match s with
  | PStr data => if isascii data then a2b_base64 data else Raise ValueError
  | PBytes data => a2b_base64 (string_of_list_byte data)
  | PNone | PBool _ | PInt _ => Raise TypeError
  end.

End base64.

(** ** [string.Template.substitute] *)

Module Template.

(** The default [idpattern] under [re.IGNORECASE] and the ASCII flag: an
    underscore or ASCII letter, then any run of underscores, ASCII letters
    and ASCII digits. *)
Definition is_idstart (c : ascii) : bool :=
  let n := N_of_ascii c in
  ((n =? 95) || ((65 <=? n) && (n <=? 90)) || ((97 <=? n) && (n <=? 122)))%N.

Definition is_idchar (c : ascii) : bool :=
  let n := N_of_ascii c in
  (is_idstart c || ((48 <=? n) && (n <=? 57)))%N.

Definition delimiter : ascii := "$"%char.

(** Where the scanner stands relative to the delimiter pattern
    of [string.Template], whose alternatives are, in this order: [escaped]
    (a second dollar sign), [named] (an identifier), [braced] (an
    identifier between braces) and [invalid] (anything else). *)
Inductive scan : Type :=
| Literal                  (* outside any placeholder *)
| Delim                    (* just after a [$] *)
| Named (name : string)    (* inside [$name] *)
| BraceOpen                (* just after [${] *)
| Braced (name : string).  (* inside [${name] *)

Definition snoc (s : string) (c : ascii) : string :=
  (s +:+ String c EmptyString)%string.

(** [str(mapping[name])]; a missing name is a [KeyError]. *)
Definition convert (mapping : gmap string pyval) (name : string)
  : outcome string :=
  match mapping !! name with
  | Some v => Return (str v)
  | None => Raise (KeyError name)
  end.

(** The substitution proper, one character at a time, left to right;
    [out] is the text produced so far.  A [$] that starts none of the
    three valid forms is the [invalid] group: [ValueError]. *)
Fixpoint sub (mapping : gmap string pyval) (st : scan) (template out : string)
  : outcome string :=
  match template with
  | EmptyString =>
      match st with
      | Literal => Return out
      | Named name =>
          match convert mapping name with
          | Return v => Return (out +:+ v)%string
          | Raise e => Raise e
          end
      | Delim | BraceOpen | Braced _ => Raise ValueError
      end
  | String c rest =>
      match st with
      | Literal =>
          if Ascii.eqb c delimiter then sub mapping Delim rest out
          else sub mapping Literal rest (snoc out c)
      | Delim =>
          if Ascii.eqb c delimiter then sub mapping Literal rest (snoc out delimiter)
          else if is_idstart c then sub mapping (Named (String c EmptyString)) rest out
          else if Ascii.eqb c "{"%char then sub mapping BraceOpen rest out
          else Raise ValueError
      | Named name =>
          if is_idchar c then sub mapping (Named (snoc name c)) rest out
          else
            match convert mapping name with
            | Return v =>
                if Ascii.eqb c delimiter then sub mapping Delim rest (out +:+ v)%string
                else sub mapping Literal rest (snoc (out +:+ v)%string c)
            | Raise e => Raise e
            end
      | BraceOpen =>
          if is_idstart c then sub mapping (Braced (String c EmptyString)) rest out
          else Raise ValueError
      | Braced name =>
          if is_idchar c then sub mapping (Braced (snoc name c)) rest out
          else if Ascii.eqb c "}"%char then
            match convert mapping name with
            | Return v => sub mapping Literal rest (out +:+ v)%string
            | Raise e => Raise e
            end
          else Raise ValueError
      end
  end.

(** [Template(template).substitute] applied to the keyword arguments
    [mapping]. *)
Definition substitute (template : string) (mapping : gmap string pyval)
  : outcome string :=
  sub mapping Literal template EmptyString.

End Template.

(** The error monad of [outcome]: a raised exception skips the rest. *)
#[global] Instance outcome_ret : MRet outcome := @Return.
#[global] Instance outcome_bind : MBind outcome :=
  fun A B (f : A -> outcome B) (x : outcome A) =>
    match x with
    | Return a => f a
    | Raise e => Raise e
    end.

(** ** [json.loads] *)

Set Warnings "-register-all".

Module json.

(** What [json.loads] builds.  A Python [int] is a [Z]; a Python [float]
    is kept as the text it was read from (so are [NaN], [Infinity] and
    [-Infinity]); a [dict] is the list of its items in insertion order,
    with distinct keys. *)
Inductive value : Type :=
| JNull
| JBool (b : bool)
| JInt (z : Z)
| JFloat (lexeme : string)
| JStr (s : string)
| JList (items : list value)
| JDict (items : list (string * value)).

(** [d[key] = v] on a [dict]: an existing key keeps its position and takes
    the new value, a new key goes last. *)
Fixpoint setitem (d : list (string * value)) (key : string) (v : value)
  : list (string * value) :=
  match d with
  | [] => [(key, v)]
  | (k, w) :: d' =>
      if String.eqb k key then (k, v) :: d' else (k, w) :: setitem d' key v
  end.

Definition is_whitespace (c : ascii) : bool :=
  let n := N_of_ascii c in
  ((n =? 32) || (n =? 9) || (n =? 10) || (n =? 13))%N.

Fixpoint skip_whitespace (s : string) : string :=
  match s with
  | String c rest => if is_whitespace c then skip_whitespace rest else s
  | EmptyString => s
  end.

Definition is_digit (c : ascii) : bool :=
  let n := N_of_ascii c in ((48 <=? n) && (n <=? 57))%N.

Definition hex_digit (c : ascii) : option N :=
  let n := N_of_ascii c in
  if ((48 <=? n) && (n <=? 57))%N then Some (n - 48)%N
  else if ((97 <=? n) && (n <=? 102))%N then Some (n - 87)%N
  else if ((65 <=? n) && (n <=? 70))%N then Some (n - 55)%N
  else None.

(** The four hexadecimal digits of a [\uXXXX] escape. *)
Definition hex4 (h1 h2 h3 h4 : ascii) : option N :=
  d1 ← hex_digit h1; d2 ← hex_digit h2;
  d3 ← hex_digit h3; d4 ← hex_digit h4;
  Some (N.lor (N.shiftl d1 12) (N.lor (N.shiftl d2 8) (N.lor (N.shiftl d3 4) d4))).

Definition chr_byte (n : N) : string := String (ascii_of_N n) EmptyString.

(** [chr(uni)] as UTF-8 bytes.  A lone surrogate, which a Python [str] can
    hold, is written in the same three-byte form as its neighbours. *)
Definition chr (uni : N) : string :=
  if (uni <? 128)%N then chr_byte uni
  else if (uni <? 2048)%N then
    chr_byte (N.lor 192 (N.shiftr uni 6)) +:+
    chr_byte (N.lor 128 (N.land uni 63))
  else if (uni <? 65536)%N then
    chr_byte (N.lor 224 (N.shiftr uni 12)) +:+
    chr_byte (N.lor 128 (N.land (N.shiftr uni 6) 63)) +:+
    chr_byte (N.lor 128 (N.land uni 63))
  else
    chr_byte (N.lor 240 (N.shiftr uni 18)) +:+
    chr_byte (N.lor 128 (N.land (N.shiftr uni 12) 63)) +:+
    chr_byte (N.lor 128 (N.land (N.shiftr uni 6) 63)) +:+
    chr_byte (N.lor 128 (N.land uni 63)).

Definition is_high_surrogate (uni : N) : bool :=
  ((55296 <=? uni) && (uni <=? 56319))%N.
Definition is_low_surrogate (uni : N) : bool :=
  ((56320 <=? uni) && (uni <=? 57343))%N.
Definition join_surrogates (hi lo : N) : N :=
  (65536 + N.lor (N.shiftl (hi - 55296) 10) (lo - 56320))%N.

(** The table [BACKSLASH] of one-character escapes. *)
Definition backslash (esc : ascii) : option ascii :=
  let n := N_of_ascii esc in
  if (n =? 34)%N then Some esc          (* double quote *)
  else if (n =? 92)%N then Some esc     (* backslash *)
  else if (n =? 47)%N then Some esc     (* solidus *)
  else if (n =? 98)%N then Some (ascii_of_N 8)
  else if (n =? 102)%N then Some (ascii_of_N 12)
  else if (n =? 110)%N then Some (ascii_of_N 10)
  else if (n =? 114)%N then Some (ascii_of_N 13)
  else if (n =? 116)%N then Some (ascii_of_N 9)
  else None.

Definition snoc (s : string) (c : ascii) : string :=
  (s +:+ String c EmptyString)%string.

(** [scanstring(s, end, strict=True)], entered just after the opening
    quote; returns the decoded string and what follows the closing quote.
    [acc] is the text decoded so far. *)
Fixpoint scanstring (s acc : string) : outcome (string * string) :=
  match s with
  | EmptyString => Raise JSONDecodeError            (* unterminated *)
  | String c rest =>
      if (N_of_ascii c =? 34)%N then Return (acc, rest)
      else if (N_of_ascii c =? 92)%N then
        match rest with
        | EmptyString => Raise JSONDecodeError
        | String esc rest1 =>
            if (N_of_ascii esc =? 117)%N then
              match rest1 with
              | String h1 (String h2 (String h3 (String h4 rest4))) =>
                  match hex4 h1 h2 h3 h4 with
                  | None => Raise JSONDecodeError
                  | Some uni =>
                      if is_high_surrogate uni then
                        match rest4 with
                        | String b (String u (String k1 (String k2
                            (String k3 (String k4 rest10))))) =>
                            if ((N_of_ascii b =? 92) && (N_of_ascii u =? 117))%N then
                              match hex4 k1 k2 k3 k4 with
                              | None => Raise JSONDecodeError
                              | Some uni2 =>
                                  if is_low_surrogate uni2 then
                                    scanstring rest10
                                      (acc +:+ chr (join_surrogates uni uni2))
                                  else scanstring rest4 (acc +:+ chr uni)
                              end
                            else scanstring rest4 (acc +:+ chr uni)
                        | _ => scanstring rest4 (acc +:+ chr uni)
                        end
                      else scanstring rest4 (acc +:+ chr uni)
                  end
              | _ => Raise JSONDecodeError
              end
            else
              match backslash esc with
              | Some ch => scanstring rest1 (snoc acc ch)
              | None => Raise JSONDecodeError
              end
        end
      else if (N_of_ascii c <? 32)%N then Raise JSONDecodeError
      else scanstring rest (snoc acc c)
  end.

(** The longest run of digits at the head of [s], and the rest. *)
Fixpoint span_digits (s : string) : string * string :=
  match s with
  | String c rest =>
      if is_digit c then
        let '(ds, r) := span_digits rest in (String c ds, r)
      else (EmptyString, s)
  | EmptyString => (EmptyString, EmptyString)
  end.

Definition int_of_digits (ds : string) : Z :=
  let fix go (s : string) (acc : Z) : Z :=
    match s with
    | String c rest => go rest (10 * acc + (Z.of_N (N_of_ascii c) - 48))
    | EmptyString => acc
    end in
  go ds 0.

(** The integer part of [NUMBER_RE]: a zero, or a non-zero digit and any
    run of digits. *)
Definition match_intpart (s : string) : option (string * string) :=
  match s with
  | String c rest =>
      if (N_of_ascii c =? 48)%N then Some (String c EmptyString, rest)
      else if is_digit c then
        let '(ds, r) := span_digits rest in Some (String c ds, r)
      else None
  | EmptyString => None
  end.

(** The optional fraction: a dot and at least one digit. *)
Definition match_frac (s : string) : string * string :=
  match s with
  | String c rest =>
      if (N_of_ascii c =? 46)%N then
        match span_digits rest with
        | (EmptyString, _) => (EmptyString, s)
        | (ds, r) => (String c ds, r)
        end
      else (EmptyString, s)
  | EmptyString => (EmptyString, s)
  end.

(** The optional exponent: [e] or [E], an optional sign, at least one
    digit. *)
Definition match_exp (s : string) : string * string :=
  match s with
  | String c rest =>
      if ((N_of_ascii c =? 101) || (N_of_ascii c =? 69))%N then
        match rest with
        | String sg rest1 =>
            if ((N_of_ascii sg =? 43) || (N_of_ascii sg =? 45))%N then
              match span_digits rest1 with
              | (EmptyString, _) => (EmptyString, s)
              | (ds, r) => (String c (String sg ds), r)
              end
            else
              match span_digits rest with
              | (EmptyString, _) => (EmptyString, s)
              | (ds, r) => (String c ds, r)
              end
        | EmptyString => (EmptyString, s)
        end
      else (EmptyString, s)
  | EmptyString => (EmptyString, s)
  end.

(** [NUMBER_RE.match] and the conversion of the match: an [int] when there
    is neither fraction nor exponent, a [float] otherwise. *)
Definition match_number (s : string) : option (value * string) :=
  let '(neg, s1) :=
    match s with
    | String c rest => if (N_of_ascii c =? 45)%N then (true, rest) else (false, s)
    | EmptyString => (false, s)
    end in
  '(int, s2) ← match_intpart s1;
  let '(frac, s3) := match_frac s2 in
  let '(exp, s4) := match_exp s3 in
  match frac, exp with
  | EmptyString, EmptyString =>
      Some (JInt (if neg then - int_of_digits int else int_of_digits int), s4)
  | _, _ =>
      Some (JFloat ((if neg then "-" else "") +:+ int +:+ frac +:+ exp), s4)
  end.

(** [s] starts with [prefix]: what follows it. *)
Fixpoint strip_prefix (prefix s : string) : option string :=
  match prefix, s with
  | EmptyString, _ => Some s
  | String p prefix', String c rest =>
      if Ascii.eqb p c then strip_prefix prefix' rest else None
  | String _ _, EmptyString => None
  end.

(** The named constants, then a number; [None] is [StopIteration]. *)
Definition scan_constant (s : string) : option (value * string) :=
  match strip_prefix "null" s with Some r => Some (JNull, r) | None =>
  match strip_prefix "true" s with Some r => Some (JBool true, r) | None =>
  match strip_prefix "false" s with Some r => Some (JBool false, r) | None =>
  match strip_prefix "NaN" s with Some r => Some (JFloat "NaN", r) | None =>
  match strip_prefix "Infinity" s with Some r => Some (JFloat "Infinity", r) | None =>
  match strip_prefix "-Infinity" s with Some r => Some (JFloat "-Infinity", r) | None =>
  match_number s
  end end end end end end.

(** [scan_once], [JSONArray] and [JSONObject].  Each takes the text at its
    current position and returns the value read and the text after it.
    [parse_items] stands at the start of an array element, [parse_pairs]
    at the opening quote of an object key; both carry what has been read
    so far.  [depth] bounds the number of nested calls; [loads] gives
    more than any text of its length can use (see [loads_depth_enough]
    below), so that the model never raises [RecursionError] itself.  Two
    limits of the interpreter are not modelled: its recursion limit
    ([RecursionError] for documents nested some thousand levels deep) and,
    since Python 3.11, its limit on the digits of an integer ([ValueError]
    beyond 4300 digits by default).  The properties below that speak of a
    result of [loads] are stated for whatever [loads] returns or raises, or
    for texts that meet neither limit. *)
Fixpoint scan_once (depth : nat) (s : string) : outcome (value * string) :=
  match depth with
  | O => Raise RecursionError
  | S depth' =>
      match s with
      | EmptyString => Raise JSONDecodeError
      | String c rest =>
          if (N_of_ascii c =? 34)%N then
            '(str, r) ← scanstring rest EmptyString; Return (JStr str, r)
          else if (N_of_ascii c =? 123)%N then
            match skip_whitespace rest with
            | String c1 r1 =>
                if (N_of_ascii c1 =? 125)%N then Return (JDict [], r1)
                else parse_pairs depth' (String c1 r1) []
            | EmptyString => Raise JSONDecodeError
            end
          else if (N_of_ascii c =? 91)%N then
            match skip_whitespace rest with
            | String c1 r1 =>
                if (N_of_ascii c1 =? 93)%N then Return (JList [], r1)
                else parse_items depth' (String c1 r1) []
            | EmptyString => Raise JSONDecodeError
            end
          else
            match scan_constant s with
            | Some res => Return res
            | None => Raise JSONDecodeError
            end
      end
  end
with parse_items (depth : nat) (s : string) (acc : list value)
  : outcome (value * string) :=
  match depth with
  | O => Raise RecursionError
  | S depth' =>
      '(val, r) ← scan_once depth' s;
      match skip_whitespace r with
      | String c r1 =>
          if (N_of_ascii c =? 93)%N then Return (JList (acc ++ [val]), r1)
          else if (N_of_ascii c =? 44)%N then
            parse_items depth' (skip_whitespace r1) (acc ++ [val])
          else Raise JSONDecodeError
      | EmptyString => Raise JSONDecodeError
      end
  end
with parse_pairs (depth : nat) (s : string) (acc : list (string * value))
  : outcome (value * string) :=
  match depth with
  | O => Raise RecursionError
  | S depth' =>
      match s with
      | String q rest =>
          if (N_of_ascii q =? 34)%N then
            '(key, r) ← scanstring rest EmptyString;
            match skip_whitespace r with
            | String colon r1 =>
                if (N_of_ascii colon =? 58)%N then
                  '(val, r2) ← scan_once depth' (skip_whitespace r1);
                  match skip_whitespace r2 with
                  | String c r3 =>
                      if (N_of_ascii c =? 125)%N then
                        Return (JDict (setitem acc key val), r3)
                      else if (N_of_ascii c =? 44)%N then
                        parse_pairs depth' (skip_whitespace r3)
                          (setitem acc key val)
                      else Raise JSONDecodeError
                  | EmptyString => Raise JSONDecodeError
                  end
                else Raise JSONDecodeError
            | EmptyString => Raise JSONDecodeError
            end
          else Raise JSONDecodeError
      | EmptyString => Raise JSONDecodeError
      end
  end.

(** [json.loads(s)]: one value, surrounded by optional whitespace, and
    nothing else. *)
Definition loads (s : string) : outcome value :=
  '(obj, rest) ← scan_once (2 * String.length s + 1) (skip_whitespace s);
  match skip_whitespace rest with
  | EmptyString => Return obj
  | String _ _ => Raise JSONDecodeError
  end.

End json.

(** ** The backend client ([comfy.ComfyServer]) *)

(** Modelled from the spec: the response of [upload_image] ([comfy] is not
    among the sources).  The service reads its entries [name] and
    [subfolder] (lines 27-29); the specification gives both as strings, the
    second one possibly empty. *)
Record upload_resp : Type := UploadResp {
  name : string;
  subfolder : string
}.

(** The client's three coroutines, with the arguments the service passes
    to them, as transitions of the backend's state.  Their bodies are not
    among the sources: they are the parameters of everything below, free
    to return or to raise.  [record] is [database.Record].  Whatever
    [clean_file] returns is discarded by the service. *)
Class ComfyServer (backend record : Type) : Type := {
  upload_image : list byte -> backend -> outcome upload_resp * backend;
  queue_prompt : Z -> json.value -> backend -> outcome record * backend;
  clean_file : bool -> string -> backend -> outcome pyval * backend
}.

(** A call made to the client. *)
Inductive call : Type :=
| UploadImage (image : list byte)
| QueuePrompt (client_task_id : Z) (prompt : json.value)
| CleanFile (is_input : bool) (image_path : string).

(** The backend together with the log of the calls made to it so far,
    oldest first. *)
Record world (backend : Type) : Type := World {
  server : backend;
  log : list call
}.
Arguments World {backend} server log.
Arguments server {backend} w.
Arguments log {backend} w.

(** A coroutine run to completion: it returns or raises, and leaves a new
    world behind. *)
Definition task (backend A : Type) : Type :=
  world backend -> outcome A * world backend.

#[global] Instance task_ret {backend} : MRet (task backend) :=
  fun A (a : A) w => (Return a, w).
#[global] Instance task_bind {backend} : MBind (task backend) :=
  fun A B (f : A -> task backend B) (x : task backend A) w =>
    match x w with
    | (Return a, w') => f a w'
    | (Raise e, w') => (Raise e, w')
    end.

(** A call that touches nothing outside the coroutine. *)
Definition lift {backend A} (x : outcome A) : task backend A :=
  fun w => (x, w).

(** [try: body finally: cleanup].  [cleanup] runs whatever [body] did; an
    exception raised by [cleanup] replaces the outcome of [body], otherwise
    that outcome (a returned value or an exception) stands. *)
Definition try_finally {backend A B}
    (body : task backend A) (cleanup : task backend B) : task backend A :=
  fun w =>
    let '(r, w1) := body w in
    match cleanup w1 with
    | (Return _, w2) => (r, w2)
    | (Raise e, w2) => (Raise e, w2)
    end.

(** [await comfy_client.method(...)]: the call is logged, then made. *)
Definition await {backend A} (c : call)
    (method : backend -> outcome A * backend) : task backend A :=
  fun w =>
    let '(r, s) := method (server w) in
    (r, World s (log w ++ [c])).

(** ** [Service] *)

Section Service.

Context {backend record : Type} `{!ComfyServer backend record}.

(** [workflows.text2img.TEXT2IMG_PROMPT_TEMPLATE] and
    [workflows.img2img.IMG2IMG_PROMPT_TEMPLATE]: the text of the two
    [string.Template] objects. *)
Variable TEXT2IMG_PROMPT_TEMPLATE : string.
Variable IMG2IMG_PROMPT_TEMPLATE : string.

(** Lines 15-16: the template is filled in and the result parsed. *)
Definition text2img_prompt (text : pyval) : outcome json.value :=
  prompt_str ← Template.substitute TEXT2IMG_PROMPT_TEMPLATE {["text" := text]};
  json.loads prompt_str.

Definition text2img (client_task_id : Z) (params : gmap string pyval)
  : task backend record :=
  let text := dict_get params "text" in
  prompt_json ← lift (text2img_prompt text);
  await (QueuePrompt client_task_id prompt_json)
        (queue_prompt client_task_id prompt_json).

(** Lines 27-29: the path of the uploaded file. *)
Definition image_path (resp : upload_resp) : string :=
  let image_path := name resp in
  if truthy (subfolder resp) then subfolder resp +:+ "/" +:+ image_path
  else image_path.

(** Lines 32-33. *)
Definition img2img_prompt (text : pyval) (image : string) : outcome json.value :=
  prompt_str ← Template.substitute IMG2IMG_PROMPT_TEMPLATE
                 (<["text" := text]> {["image" := PStr image]});
  json.loads prompt_str.

Definition img2img (client_task_id : Z) (params : gmap string pyval)
  : task backend record :=
  let text := dict_get params "text" in
  let image_base64 := dict_get params "image" in
  image_bytes ← lift (base64.b64decode image_base64);
  resp ← await (UploadImage image_bytes) (upload_image image_bytes);
  let image_path := image_path resp in
  prompt_json ← lift (img2img_prompt text image_path);
  try_finally
    (await (QueuePrompt client_task_id prompt_json)
           (queue_prompt client_task_id prompt_json))
    (await (CleanFile true image_path) (clean_file true image_path)).

End Service.

(** ** A concrete setting to run the service in *)

(** JSON text is written with apostrophes standing for double quotes. *)
Fixpoint q (s : string) : string :=
  match s with
  | EmptyString => EmptyString
  | String c rest =>
      String (if (N_of_ascii c =? 39)%N then ascii_of_N 34 else c) (q rest)
  end.

Module Demo.

(** The templates of [workflows] are not among the sources.  These two
    stand for them where a run needs concrete ones: JSON documents in the
    shape of ComfyUI's API format, with the placeholders inside JSON
    strings. *)
Definition TEXT2IMG_PROMPT_TEMPLATE : string :=
  q "{'6': {'class_type': 'CLIPTextEncode', 'inputs': {'text': '$text'}}}".

Definition IMG2IMG_PROMPT_TEMPLATE : string :=
  q "{'6': {'inputs': {'text': '$text'}}, '10': {'inputs': {'image': '$image'}}}".


(** A backend that keeps the uploaded input files and the queued task
    ids.  [next_upload] is the name it gives to the next upload; a fault,
    when set, is raised by the corresponding call. *)
Record demo_server : Type := DemoServer {
  input_files : list string;
  queue : list Z;
  next_upload : upload_resp;
  upload_fault : option exn;
  queue_fault : option exn;
  clean_fault : option exn
}.

(** Where the backend keeps an upload. *)
Definition stored_path (r : upload_resp) : string :=
  match subfolder r with
  | EmptyString => name r
  | sub => sub +:+ "/" +:+ name r
  end.

#[global] Instance demo_client : ComfyServer demo_server (Z * nat) := {
  upload_image _ st :=
    match upload_fault st with
    | Some e => (Raise e, st)
    | None =>
        (Return (next_upload st),
         DemoServer (input_files st ++ [stored_path (next_upload st)])
           (queue st) (next_upload st)
           (upload_fault st) (queue_fault st) (clean_fault st))
    end;
  queue_prompt client_task_id _ st :=
    match queue_fault st with
    | Some e => (Raise e, st)
    | None =>
        (Return (client_task_id, length (queue st)),
         DemoServer (input_files st) (queue st ++ [client_task_id])
           (next_upload st)
           (upload_fault st) (queue_fault st) (clean_fault st))
    end;
  clean_file _ path st :=
    match clean_fault st with
    | Some e => (Raise e, st)
    | None =>
        (Return PNone,
         DemoServer (filter (fun f => negb (String.eqb f path)) (input_files st))
           (queue st) (next_upload st)
           (upload_fault st) (queue_fault st) (clean_fault st))
    end
}.

(** The job that [TEXT2IMG_PROMPT_TEMPLATE] describes for a prompt
    [text]. *)
Definition text2img_job (text : string) : json.value :=
  json.JDict
    [("6", json.JDict
             [("class_type", json.JStr "CLIPTextEncode");
              ("inputs", json.JDict [("text", json.JStr text)])])].

(** The job that [IMG2IMG_PROMPT_TEMPLATE] describes for a prompt [text]
    and an image at [path]. *)
Definition img2img_job (text path : string) : json.value :=
  json.JDict
    [("6", json.JDict [("inputs", json.JDict [("text", json.JStr text)])]);
     ("10", json.JDict [("inputs", json.JDict [("image", json.JStr path)])])].

(** The name the demonstration backend gives to an upload. *)
Definition stored : upload_resp := UploadResp "img123.png" "inputs".

(** An idle backend with the given faults. *)
Definition idle (up qu cl : option exn) : world demo_server :=
  World (DemoServer [] [] stored up qu cl) [].

(** The three bytes that [QUJD] encodes. *)
Definition ABC : list byte := ["A"; "B"; "C"]%byte.

(** [{'text': text, 'image': image}] *)
Definition request (text image : string) : gmap string pyval :=
  <["text" := PStr text]> {["image" := PStr image]}.

End Demo.

(** ** Shapes of templates, to state facts about substitution *)

(** [s] holds no [$]. *)
Fixpoint no_delimiter (s : string) : bool :=
  match s with
  | EmptyString => true
  | String c rest => negb (Ascii.eqb c Template.delimiter) && no_delimiter rest
  end.

(** [s] does not go on with an identifier character, so that a [$name]
    written just before it ends there. *)
Definition ends_name (s : string) : bool :=
  match s with
  | EmptyString => true
  | String c _ => negb (Template.is_idchar c)
  end.

(** [s] is made of identifier characters only. *)
Fixpoint all_idchar (s : string) : bool :=
  match s with
  | EmptyString => true
  | String c rest => Template.is_idchar c && all_idchar rest
  end.

(** [s] matches [idpattern]. *)
Definition is_identifier (s : string) : bool :=
  match s with
  | EmptyString => false
  | String c rest => Template.is_idstart c && all_idchar rest
  end.


(** ** A template as literal text and placeholders *)

(** What [string.Template] makes of a template, read from left to right:
    literal text (a doubled dollar sign counting as one dollar sign),
    placeholders ([$name] or [${name}]), and, where a dollar sign starts
    none of these, the invalid placeholder, at which reading stops. *)
Inductive part : Type :=
| Piece (text : string)
| Hole (name : string)
| Invalid.

Fixpoint template_parts (st : Template.scan) (template : string) : list part :=
  match template with
  | EmptyString =>
      match st with
      | Template.Literal => []
      | Template.Named name => [Hole name]
      | Template.Delim | Template.BraceOpen | Template.Braced _ => [Invalid]
      end
  | String c rest =>
      match st with
      | Template.Literal =>
          if Ascii.eqb c Template.delimiter then template_parts Template.Delim rest
          else Piece (String c EmptyString) :: template_parts Template.Literal rest
      | Template.Delim =>
          if Ascii.eqb c Template.delimiter then
            Piece (String Template.delimiter EmptyString)
              :: template_parts Template.Literal rest
          else if Template.is_idstart c then
            template_parts (Template.Named (String c EmptyString)) rest
          else if Ascii.eqb c "{"%char then template_parts Template.BraceOpen rest
          else [Invalid]
      | Template.Named name =>
          if Template.is_idchar c then
            template_parts (Template.Named (Template.snoc name c)) rest
          else if Ascii.eqb c Template.delimiter then
            Hole name :: template_parts Template.Delim rest
          else
            Hole name :: Piece (String c EmptyString)
              :: template_parts Template.Literal rest
      | Template.BraceOpen =>
          if Template.is_idstart c then
            template_parts (Template.Braced (String c EmptyString)) rest
          else [Invalid]
      | Template.Braced name =>
          if Template.is_idchar c then
            template_parts (Template.Braced (Template.snoc name c)) rest
          else if Ascii.eqb c "}"%char then
            Hole name :: template_parts Template.Literal rest
          else [Invalid]
      end
  end.

(** The parts written out one after the other behind [out], each
    placeholder replaced by the string that [values] holds for its name,
    character for character: a placeholder without a value is a
    [KeyError], the invalid placeholder a [ValueError]. *)
Fixpoint fill (values : gmap string string) (parts : list part) (out : string)
  : outcome string :=
  match parts with
  | [] => Return out
  | Piece text :: rest => fill values rest (out +:+ text)
  | Hole name :: rest =>
      match values !! name with
      | Some v => fill values rest (out +:+ v)
      | None => Raise (KeyError name)
      end
  | Invalid :: _ => Raise ValueError
  end.

(** The path of an uploaded file as the specification words it:
    [subfolder/name] if a subfolder was returned, else [name]. *)
Definition spec_image_path (resp : upload_resp) : string :=
  if decide (subfolder resp = "") then name resp
  else subfolder resp +:+ "/" +:+ name resp.

(** ** The standard base64 encoding, to state what [b64decode] undoes *)

(** The alphabet: the character of a 6-bit value. *)
Definition table_b2a_base64 (n : N) : ascii :=
  if (n <? 26)%N then ascii_of_N (n + 65)
  else if (n <? 52)%N then ascii_of_N (n + 71)
  else if (n <? 62)%N then ascii_of_N (n - 4)
  else if (n =? 62)%N then "+"%char
  else "/"%char.

(** The four characters of a group of three bytes. *)
Definition b2a_group (a b c : N) (rest : string) : string :=
  String (table_b2a_base64 (N.shiftr a 2))
    (String (table_b2a_base64 (N.lor (N.shiftl (N.land a 3) 4) (N.shiftr b 4)))
       (String (table_b2a_base64 (N.lor (N.shiftl (N.land b 15) 2) (N.shiftr c 6)))
          (String (table_b2a_base64 (N.land c 63)) rest))).

(** [base64.b64encode(data)], as text: three bytes give four characters, and
    a last group of one or two bytes is padded with [=]. *)
Fixpoint b64encode (data : list byte) : string :=
  match data with
  | [] => EmptyString
  | [a] =>
      let a := Byte.to_N a in
      String (table_b2a_base64 (N.shiftr a 2))
        (String (table_b2a_base64 (N.shiftl (N.land a 3) 4)) "==")
  | [a; b] =>
      let a := Byte.to_N a in
      let b := Byte.to_N b in
      String (table_b2a_base64 (N.shiftr a 2))
        (String (table_b2a_base64 (N.lor (N.shiftl (N.land a 3) 4) (N.shiftr b 4)))
           (String (table_b2a_base64 (N.shiftl (N.land b 15) 2)) "="))
  | a :: b :: c :: rest =>
      b2a_group (Byte.to_N a) (Byte.to_N b) (Byte.to_N c) (b64encode rest)
  end.

(** The characters that [b64decode] looks at: the alphabet and the pad. *)
Definition is_base64_char (c : ascii) : bool :=
  Ascii.eqb c base64.BASE64_PAD || bool_decide (is_Some (base64.table_a2b_base64 c)).

(** [s] without the characters that [b64decode] skips. *)
Fixpoint only_base64 (s : string) : string :=
  match s with
  | EmptyString => EmptyString
  | String c rest =>
      if is_base64_char c then String c (only_base64 rest) else only_base64 rest
  end.

(** What encoder and decoder do to the bits of a 6-bit value, of one byte
    and of two bytes that follow each other; each is checked on all its
    inputs below. *)
Definition sextet_ok (n : N) : bool :=
  bool_decide (base64.table_a2b_base64 (table_b2a_base64 n) = Some n) &&
  negb (Ascii.eqb (table_b2a_base64 n) base64.BASE64_PAD) &&
  (N_of_ascii (table_b2a_base64 n) <? 128)%N.

Definition byte_ok (a : N) : bool :=
  ((N.shiftr a 2 <? 64) && (N.shiftl (N.land a 3) 4 <? 64) &&
   (N.shiftl (N.land a 15) 2 <? 64) && (N.land a 63 <? 64) &&
   (N.lor (N.shiftl (N.shiftr a 2) 2) (N.shiftr (N.shiftl (N.land a 3) 4) 4) =? a) &&
   (N.lor (N.shiftl (N.shiftr a 4) 4) (N.land a 15) =? a) &&
   (N.lor (N.shiftl (N.shiftr a 6) 6) (N.land a 63) =? a) &&
   (N.shiftr (N.shiftl (N.land a 15) 2) 2 =? N.land a 15))%N.

Definition pair_ok (a b : N) : bool :=
  let s := N.lor (N.shiftl (N.land a 3) 4) (N.shiftr b 4) in
  let t := N.lor (N.shiftl (N.land a 15) 2) (N.shiftr b 6) in
  ((s <? 64) && (N.lor (N.shiftl (N.shiftr a 2) 2) (N.shiftr s 4) =? a) &&
   (N.land s 15 =? N.shiftr b 4) &&
   (t <? 64) && (N.shiftr t 2 =? N.land a 15) && (N.land t 3 =? N.shiftr b 6))%N.

(** The characters of the current group that the decoder has read without
    having written a byte for them yet, counted in quarters of a byte. *)
Definition credit (quad_pos : N) : nat :=
  match quad_pos with
  | 0%N => 0
  | 1%N => 3
  | 2%N => 2
  | _ => 1
  end.

(** ** Shapes of JSON text and of JSON values *)

(** [s] holds no double quote, no backslash and no control character: the
    characters that [scanstring] copies without looking further. *)
Fixpoint plain_text (s : string) : bool :=
  match s with
  | EmptyString => true
  | String c rest =>
      negb (N_of_ascii c =? 34)%N && negb (N_of_ascii c =? 92)%N &&
      negb (N_of_ascii c <? 32)%N && plain_text rest
  end.

(** No [dict] inside [v] has the same key twice. *)
Fixpoint distinct_keys (v : json.value) : bool :=
  match v with
  | json.JList items => forallb distinct_keys items
  | json.JDict items =>
      bool_decide (NoDup (map fst items)) &&
      forallb (fun kv => distinct_keys (snd kv)) items
  | _ => true
  end.

Definition values_distinct (d : list (string * json.value)) : bool :=
  forallb (fun kv => distinct_keys (snd kv)) d.

(** * Properties *)

(** ** The library functions on small inputs *)

Example b64decode_full_group :
  base64.b64decode (PStr "QUJD") = Return ["A"; "B"; "C"]%byte.
Proof. reflexivity. Qed.

Example b64decode_padded :
  base64.b64decode (PStr "QUI=") = Return ["A"; "B"]%byte /\
  base64.b64decode (PStr "QQ==ignored") = Return ["A"]%byte.
Proof. split; reflexivity. Qed.

Example b64decode_errors :
  base64.b64decode (PStr "QQ=Q") = Raise BinasciiError /\
  base64.b64decode (PStr "A") = Raise BinasciiError /\
  base64.b64decode PNone = Raise TypeError.
Proof. repeat split; reflexivity. Qed.

Example substitute_forms :
  Template.substitute "a $x ${y}z $$ $x1."
    (<["x" := PStr "1"]> (<["y" := PNone]> {["x1" := PInt (-5)]})) =
  Return "a 1 Nonez $ -5.".
Proof. vm_compute. reflexivity. Qed.

Example substitute_errors :
  Template.substitute "a $x ${y z" {["x" := PStr "1"]} = Raise ValueError /\
  Template.substitute "a $x ${y} $" {["x" := PStr "1"]} = Raise (KeyError "y") /\
  Template.substitute "100 $" ∅ = Raise ValueError.
Proof. vm_compute. repeat split; reflexivity. Qed.

Example loads_values :
  json.loads (q "{'a': [1, -2.5e3, null, true], 'b': {'c': 'xé\n'}, 'a': 7}") =
  Return (json.JDict
            [("a", json.JInt 7);
             ("b", json.JDict
                     [("c", json.JStr (String "x" (String (ascii_of_N 195)
                              (String (ascii_of_N 169)
                                 (String (ascii_of_N 10) "")))))])]).
Proof. vm_compute. reflexivity. Qed.

Example loads_errors :
  json.loads (q "{'a': 1,}") = Raise JSONDecodeError /\
  json.loads (q "{'a': 01}") = Raise JSONDecodeError /\
  json.loads "[[[[" = Raise JSONDecodeError /\
  json.loads (q "'a' 'b'") = Raise JSONDecodeError.
Proof. vm_compute. repeat split; reflexivity. Qed.

(** ** Strings *)

#[local] Arguments String.append !s1 s2 / : simpl nomatch.

Lemma append_nil_r (s : string) : s +:+ "" = s.
Proof. induction s as [|c s IH]; simpl; [done | by rewrite IH]. Qed.

Lemma append_assoc (s1 s2 s3 : string) : (s1 +:+ s2) +:+ s3 = s1 +:+ s2 +:+ s3.
Proof. induction s1 as [|c s1 IH]; simpl; [done | by rewrite IH]. Qed.

Lemma snoc_append (s : string) (c : ascii) (t : string) :
  Template.snoc s c +:+ t = s +:+ String c t.
Proof. unfold Template.snoc. by rewrite append_assoc. Qed.

(** ** [json.loads]: the depth it is given is enough *)

Section JsonFacts.

Import json.
Local Open Scope nat_scope.

Lemma skip_whitespace_length s : String.length (skip_whitespace s) <= String.length s.
Proof. induction s as [|c s IH]; simpl; [lia|]. destruct (is_whitespace c); simpl; lia. Qed.

Lemma scanstring_shrinks n : forall s acc,
  String.length s <= n ->
  scanstring s acc <> Raise RecursionError /\
  forall a r, scanstring s acc = Return (a, r) -> String.length r < String.length s.
Proof.
  induction n as [|n IH]; intros s acc Hn.
  - destruct s; [|simpl in Hn; lia]. simpl. split; [done|]. intros; discriminate.
  - destruct s as [|c rest]; [simpl; split; [done|intros; discriminate]|].
    simpl in Hn. simpl.
    repeat case_match; subst; cbn [String.length] in *;
      try (split; [done|intros; discriminate]);
      try (split; [done|intros ?? [= <- <-]; lia]).
    all: match goal with |- context [scanstring ?s ?a] =>
           destruct (IH s a) as [IH1 IH2]; [cbn [String.length]; lia|]; split; [done|];
           intros a' r' Hr; apply IH2 in Hr; cbn [String.length] in *; lia end.
Qed.

Lemma strip_prefix_length prefix : forall s r,
  strip_prefix prefix s = Some r ->
  String.length s = String.length prefix + String.length r.
Proof.
  induction prefix as [|p prefix IH]; intros s r; simpl.
  - by intros [= ->].
  - destruct s as [|c s]; [done|]. destruct (Ascii.eqb p c); [|done].
    intros H%IH. simpl. lia.
Qed.

Lemma span_digits_length s : forall ds r,
  span_digits s = (ds, r) ->
  String.length s = String.length ds + String.length r.
Proof.
  induction s as [|c s IH]; intros ds r; simpl.
  - by intros [= <- <-].
  - destruct (is_digit c).
    + destruct (span_digits s) as [ds' r'] eqn:E. intros [= <- <-].
      simpl. rewrite (IH ds' r'); [lia|done].
    + by intros [= <- <-].
Qed.

Lemma match_intpart_length s int r :
  match_intpart s = Some (int, r) ->
  String.length r < String.length s.
Proof.
  unfold match_intpart. destruct s as [|c s]; [done|].
  repeat case_match; intros [= <- <-]; simpl; try lia.
  match goal with H : span_digits _ = _ |- _ => apply span_digits_length in H end.
  lia.
Qed.

Lemma match_frac_length s frac r :
  match_frac s = (frac, r) -> String.length r <= String.length s.
Proof.
  unfold match_frac. destruct s as [|c s]; [by intros [= <- <-]|].
  repeat case_match; intros [= <- <-]; simpl; try lia.
  match goal with H : span_digits _ = _ |- _ => apply span_digits_length in H end.
  simpl in *. lia.
Qed.

Lemma match_exp_length s exp r :
  match_exp s = (exp, r) -> String.length r <= String.length s.
Proof.
  unfold match_exp. destruct s as [|c s]; [by intros [= <- <-]|].
  repeat case_match; intros [= <- <-]; simpl; try lia.
  all: match goal with H : span_digits _ = _ |- _ => apply span_digits_length in H end.
  all: simpl in *; lia.
Qed.

Lemma match_number_length s v r :
  match_number s = Some (v, r) -> String.length r < String.length s.
Proof.
  unfold match_number.
  destruct (match s with String c rest => _ | EmptyString => _ end)
    as [neg s1] eqn:E1.
  assert (String.length s1 <= String.length s).
  { destruct s as [|c rest]; [by injection E1 as <- <-|].
    destruct (N_of_ascii c =? 45)%N; injection E1 as <- <-; simpl; lia. }
  destruct (match_intpart s1) as [[int s2]|] eqn:E2; [|done]. simpl.
  apply match_intpart_length in E2.
  destruct (match_frac s2) as [frac s3] eqn:E3. apply match_frac_length in E3.
  destruct (match_exp s3) as [exp s4] eqn:E4. apply match_exp_length in E4.
  repeat case_match; intros [= <- <-]; lia.
Qed.

Lemma scan_constant_length s v r :
  scan_constant s = Some (v, r) -> String.length r < String.length s.
Proof.
  unfold scan_constant.
  repeat case_match; try (intros [= <- <-]);
    try match goal with H : strip_prefix _ _ = Some _ |- _ =>
          apply strip_prefix_length in H; simpl in H; lia end.
  apply match_number_length.
Qed.

Lemma scanstring_length s acc a r :
  scanstring s acc = Return (a, r) -> String.length r < String.length s.
Proof. intros H. by eapply (scanstring_shrinks (String.length s)). Qed.

Lemma scanstring_no_recursion s acc : scanstring s acc <> Raise RecursionError.
Proof. by eapply (scanstring_shrinks (String.length s)). Qed.

Ltac bind_cases :=
  unfold mbind, outcome_bind;
  repeat match goal with
  | |- context [match scanstring ?s ?a with _ => _ end] =>
      let E := fresh "Es" in
      destruct (scanstring s a) as [[? ?]|?] eqn:E;
      [apply scanstring_length in E|]
  | |- context [match skip_whitespace ?s with _ => _ end] =>
      let E := fresh "Ew" in
      pose proof (skip_whitespace_length s);
      destruct (skip_whitespace s) eqn:E
  | |- context [match scan_constant ?s with _ => _ end] =>
      let E := fresh "Ec" in
      destruct (scan_constant s) as [[? ?]|] eqn:E;
      [apply scan_constant_length in E|]
  | |- context [if ?b then _ else _] => destruct b
  end.

Lemma scan_shrinks depth :
  (forall s v r, scan_once depth s = Return (v, r) ->
                 String.length r < String.length s) /\
  (forall s acc v r, parse_items depth s acc = Return (v, r) ->
                     String.length r < String.length s) /\
  (forall s acc v r, parse_pairs depth s acc = Return (v, r) ->
                     String.length r < String.length s).
Proof.
  induction depth as [|depth (IHs & IHi & IHp)]; [by repeat split|].
  repeat split.
  - intros s v r. simpl. destruct s as [|c rest]; [done|].
    bind_cases; cbn [String.length] in *;
      first [ discriminate
            | intros [= <- <-]; cbn [String.length] in *; lia
            | intros Hrec%IHp; cbn [String.length] in *; lia
            | intros Hrec%IHi; cbn [String.length] in *; lia ].
  - intros s acc v r. simpl. unfold mbind, outcome_bind.
    destruct (scan_once depth s) as [[val r0]|] eqn:E; [|done]. apply IHs in E.
    bind_cases; cbn [String.length] in *; try discriminate;
      try (intros [= <- <-]; cbn [String.length] in *; lia).
    intros Hrec%IHi. pose proof (skip_whitespace_length s0). lia.
  - intros s acc v r. simpl. destruct s as [|c rest]; [done|].
    unfold mbind, outcome_bind.
    destruct (N_of_ascii c =? 34)%N; [|done].
    destruct (scanstring rest "") as [[key r0]|] eqn:Es; [|done].
    apply scanstring_length in Es.
    pose proof (skip_whitespace_length r0).
    destruct (skip_whitespace r0) as [|colon r1]; [done|].
    destruct (N_of_ascii colon =? 58)%N; [|done].
    destruct (scan_once depth (skip_whitespace r1)) as [[val r2]|] eqn:E; [|done].
    apply IHs in E. pose proof (skip_whitespace_length r1).
    pose proof (skip_whitespace_length r2).
    destruct (skip_whitespace r2) as [|c3 r3]; [done|].
    cbn [String.length] in *.
    destruct (N_of_ascii c3 =? 125)%N; [intros [= <- <-]; lia|].
    destruct (N_of_ascii c3 =? 44)%N; [|done].
    intros Hrec%IHp. pose proof (skip_whitespace_length r3). lia.
Qed.

Lemma scan_depth_enough depth :
  (forall s, 2 * String.length s < depth ->
             scan_once depth s <> Raise RecursionError) /\
  (forall s acc, 2 * String.length s + 1 < depth ->
                 parse_items depth s acc <> Raise RecursionError) /\
  (forall s acc, 2 * String.length s + 1 < depth ->
                 parse_pairs depth s acc <> Raise RecursionError).
Proof.
  induction depth as [|depth (IHs & IHi & IHp)]; [repeat split; intros; lia|].
  repeat split.
  - intros s Hd. simpl. destruct s as [|c rest]; [done|].
    cbn [String.length] in Hd.
    bind_cases; cbn [String.length] in *;
      first [ done
            | intros [= ->];
              match goal with
              | H : scanstring _ _ = Raise RecursionError |- _ =>
                  by apply scanstring_no_recursion in H
              end
            | apply IHp; cbn [String.length]; lia
            | apply IHi; cbn [String.length]; lia ].
  - intros s acc Hd. simpl. unfold mbind, outcome_bind.
    destruct (scan_once depth s) as [[val r0]|e] eqn:E.
    + apply (proj1 (scan_shrinks depth)) in E.
      pose proof (skip_whitespace_length r0).
      destruct (skip_whitespace r0) as [|c r1]; [done|].
      cbn [String.length] in *.
      destruct (N_of_ascii c =? 93)%N; [done|].
      destruct (N_of_ascii c =? 44)%N; [|done].
      apply IHi. pose proof (skip_whitespace_length r1). lia.
    + intros [= ->]. revert E. apply IHs. lia.
  - intros s acc Hd. simpl. destruct s as [|c rest]; [done|].
    unfold mbind, outcome_bind. cbn [String.length] in Hd.
    destruct (N_of_ascii c =? 34)%N; [|done].
    destruct (scanstring rest "") as [[key r0]|e] eqn:Es;
      [|intros [= ->]; by apply scanstring_no_recursion in Es].
    apply scanstring_length in Es.
    pose proof (skip_whitespace_length r0).
    destruct (skip_whitespace r0) as [|colon r1]; [done|].
    destruct (N_of_ascii colon =? 58)%N; [|done].
    cbn [String.length] in *.
    pose proof (skip_whitespace_length r1).
    destruct (scan_once depth (skip_whitespace r1)) as [[val r2]|e] eqn:E.
    + apply (proj1 (scan_shrinks depth)) in E.
      pose proof (skip_whitespace_length r2).
      destruct (skip_whitespace r2) as [|c3 r3]; [done|].
      cbn [String.length] in *.
      destruct (N_of_ascii c3 =? 125)%N; [done|].
      destruct (N_of_ascii c3 =? 44)%N; [|done].
      apply IHp. pose proof (skip_whitespace_length r3). lia.
    + intros [= ->]. revert E. apply IHs. lia.
Qed.

Lemma loads_depth_enough s : loads s <> Raise RecursionError.
Proof.
  unfold loads, mbind, outcome_bind.
  destruct (scan_once _ _) as [[obj rest]|e] eqn:E.
  - by destruct (skip_whitespace rest).
  - intros [= ->]. revert E. apply scan_depth_enough.
    pose proof (skip_whitespace_length s). lia.
Qed.

End JsonFacts.

(** ** [string.Template.substitute] *)

Section TemplateFacts.

Import Template.

Implicit Types (mapping : gmap string pyval) (st : scan).

(** Only the [str] of the mapped values matters. *)
Lemma convert_str_ext mapping1 mapping2 name :
  (forall k, str <$> (mapping1 !! k) = str <$> (mapping2 !! k)) ->
  convert mapping1 name = convert mapping2 name.
Proof.
  intros H. specialize (H name). unfold convert.
  destruct (mapping1 !! name), (mapping2 !! name); simpl in H; congruence.
Qed.

Lemma sub_str_ext mapping1 mapping2 :
  (forall k, str <$> (mapping1 !! k) = str <$> (mapping2 !! k)) ->
  forall template st out,
    sub mapping1 st template out = sub mapping2 st template out.
Proof.
  intros H template.
  induction template as [|c rest IH]; intros st out; simpl.
  - destruct st; try reflexivity. by rewrite (convert_str_ext _ _ _ H).
  - destruct st; rewrite ?(convert_str_ext _ _ _ H);
      repeat case_match; auto.
Qed.


(** Text without a [$] is copied as it is. *)
Lemma sub_literal mapping pre : forall rest out,
  no_delimiter pre = true ->
  sub mapping Literal (pre +:+ rest) out = sub mapping Literal rest (out +:+ pre).
Proof.
  induction pre as [|c pre IH]; intros rest out Hpre; simpl.
  - by rewrite append_nil_r.
  - simpl in Hpre. apply andb_prop in Hpre as [Hc Hpre].
    apply negb_true_iff in Hc. rewrite Hc, IH by done.
    by rewrite snoc_append.
Qed.

Lemma sub_literal_end mapping post out :
  no_delimiter post = true ->
  sub mapping Literal post out = Return (out +:+ post).
Proof.
  intros Hpost. rewrite <- (append_nil_r post) at 1.
  by rewrite sub_literal.
Qed.

(** Inside a name: the identifier characters that follow extend it, and
    the name ends where they end. *)
Lemma sub_named mapping name : forall prefix rest out,
  all_idchar name = true ->
  ends_name rest = true ->
  sub mapping (Named prefix) (name +:+ rest) out =
    v ← convert mapping (prefix +:+ name);
    sub mapping Literal rest (out +:+ v).
Proof.
  induction name as [|c name IH]; intros prefix rest out Hname Hrest; simpl.
  - rewrite append_nil_r. unfold mbind, outcome_bind.
    destruct rest as [|c rest]; simpl.
    + by destruct (convert mapping prefix).
    + simpl in Hrest. apply negb_true_iff in Hrest. rewrite Hrest.
      destruct (convert mapping prefix); [|done]. simpl.
      by destruct (Ascii.eqb c delimiter).
  - simpl in Hname. apply andb_prop in Hname as [Hc Hname].
    rewrite Hc, IH by done. by rewrite snoc_append.
Qed.

Lemma idstart_not_delimiter c :
  is_idstart c = true -> Ascii.eqb c delimiter = false.
Proof.
  intros Hc. destruct (Ascii.eqb_spec c delimiter) as [->|]; [|done].
  discriminate Hc.
Qed.

(** A placeholder [$name] in running text. *)
Lemma sub_placeholder mapping name rest out :
  is_identifier name = true ->
  ends_name rest = true ->
  sub mapping Literal (String delimiter (name +:+ rest)) out =
    v ← convert mapping name;
    sub mapping Literal rest (out +:+ v).
Proof.
  intros Hname Hrest. destruct name as [|c name]; [done|].
  simpl in Hname. apply andb_prop in Hname as [Hc Hname].
  cbn [sub String.append]. change (Ascii.eqb delimiter delimiter) with true.
  cbv iota. rewrite (idstart_not_delimiter _ Hc), Hc.
  by rewrite sub_named.
Qed.

(** A template with the single placeholder [$name]: the [str] of the
    mapped value takes the placeholder's place, unchanged. *)
Lemma substitute_one mapping pre name post v :
  no_delimiter pre = true ->
  is_identifier name = true ->
  ends_name post = true ->
  no_delimiter post = true ->
  mapping !! name = Some v ->
  substitute (pre +:+ String delimiter (name +:+ post)) mapping =
    Return (pre +:+ str v +:+ post).
Proof.
  intros Hpre Hname Hends Hpost Hv. unfold substitute.
  rewrite sub_literal, sub_placeholder by done.
  unfold convert. rewrite Hv. unfold mbind, outcome_bind.
  rewrite sub_literal_end by done. simpl. by rewrite append_assoc.
Qed.

(** The same with two placeholders. *)
Lemma substitute_two mapping pre name1 mid name2 post v1 v2 :
  no_delimiter pre = true ->
  is_identifier name1 = true ->
  ends_name mid = true ->
  no_delimiter mid = true ->
  is_identifier name2 = true ->
  ends_name post = true ->
  no_delimiter post = true ->
  mapping !! name1 = Some v1 ->
  mapping !! name2 = Some v2 ->
  substitute (pre +:+ String delimiter (name1 +:+ mid +:+
                      String delimiter (name2 +:+ post))) mapping =
    Return (pre +:+ str v1 +:+ mid +:+ str v2 +:+ post).
Proof.
  intros Hpre Hname1 Hends1 Hmid Hname2 Hends2 Hpost Hv1 Hv2.
  unfold substitute.
  rewrite sub_literal by done.
  rewrite sub_placeholder; [|done|by destruct mid].
  unfold convert at 1. rewrite Hv1. unfold mbind at 1, outcome_bind at 1.
  rewrite sub_literal, sub_placeholder by done.
  unfold convert. rewrite Hv2. unfold mbind, outcome_bind.
  rewrite sub_literal_end by done. simpl.
  by rewrite !append_assoc.
Qed.

(** [substitute] is [fill] on the parts of the template: the mapped values
    enter the result as their [str] and in no other way. *)
Lemma sub_fill mapping template : forall st out,
  Template.sub mapping st template out =
    fill (str <$> mapping) (template_parts st template) out.
Proof.
  assert (Hc : forall name out rest,
             fill (str <$> mapping) (Hole name :: rest) out =
             match Template.convert mapping name with
             | Return v => fill (str <$> mapping) rest (out +:+ v)
             | Raise e => Raise e
             end).
  { intros name out rest. cbn [fill]. unfold Template.convert.
    rewrite lookup_fmap. by destruct (mapping !! name). }
  induction template as [|c rest IH]; intros st out.
  - destruct st as [| |name| |name]; cbn [Template.sub template_parts];
      first [done | rewrite Hc; by destruct (Template.convert mapping name)].
  - destruct st as [| |name| |name]; cbn [Template.sub template_parts].
    + case_match; cbn [fill]; by rewrite IH.
    + repeat case_match; cbn [fill]; by rewrite ?IH.
    + destruct (Template.is_idchar c); [by rewrite IH|].
      destruct (Ascii.eqb c Template.delimiter); rewrite Hc;
        destruct (Template.convert mapping name);
        cbn [fill]; by rewrite ?IH.
    + case_match; cbn [fill]; by rewrite ?IH.
    + destruct (Template.is_idchar c); [by rewrite IH|].
      destruct (Ascii.eqb c "}"); [|done]. rewrite Hc.
      destruct (Template.convert mapping name); by rewrite ?IH.
Qed.

End TemplateFacts.


(** ** The order of the backend calls *)

Section ServiceFacts.

Context {backend record : Type} `{!ComfyServer backend record}.
Variable TEXT2IMG_PROMPT_TEMPLATE : string.
Variable IMG2IMG_PROMPT_TEMPLATE : string.

Implicit Types (w : world backend) (params : gmap string pyval).

Ltac run := unfold mbind, task_bind, lift, await, try_finally; simpl.

(** [img2img] up to the upload: while the decoding of the [image]
    parameter fails nothing is sent to the backend. *)
Lemma img2img_decode_fails client_task_id params w e :
  base64.b64decode (dict_get params "image") = Raise e ->
  img2img IMG2IMG_PROMPT_TEMPLATE client_task_id params w = (Raise e, w).
Proof. intros Hd. unfold img2img. run. by rewrite Hd. Qed.

(** [img2img] once the upload has answered. *)
Lemma img2img_uploaded client_task_id params w image_bytes resp s1 :
  base64.b64decode (dict_get params "image") = Return image_bytes ->
  upload_image image_bytes (server w) = (Return resp, s1) ->
  img2img IMG2IMG_PROMPT_TEMPLATE client_task_id params w =
    let w1 := World s1 (log w ++ [UploadImage image_bytes]) in
    match img2img_prompt IMG2IMG_PROMPT_TEMPLATE
            (dict_get params "text") (image_path resp) with
    | Raise e => (Raise e, w1)
    | Return prompt_json =>
        try_finally
          (await (QueuePrompt client_task_id prompt_json)
                 (queue_prompt client_task_id prompt_json))
          (await (CleanFile true (image_path resp))
                 (clean_file true (image_path resp))) w1
    end.
Proof.
  intros Hd Hu. unfold img2img. run. rewrite Hd, Hu.
  by destruct (img2img_prompt _ _ _).
Qed.

(** The render step fails after a successful upload: the exception leaves
    [img2img] at once, the upload being the only call made. *)
Lemma img2img_render_fails client_task_id params w image_bytes resp s1 e :
  base64.b64decode (dict_get params "image") = Return image_bytes ->
  upload_image image_bytes (server w) = (Return resp, s1) ->
  img2img_prompt IMG2IMG_PROMPT_TEMPLATE
    (dict_get params "text") (image_path resp) = Raise e ->
  img2img IMG2IMG_PROMPT_TEMPLATE client_task_id params w =
    (Raise e, World s1 (log w ++ [UploadImage image_bytes])).
Proof.
  intros Hd Hu Hr. rewrite (img2img_uploaded _ _ _ _ _ _ Hd Hu).
  simpl. by rewrite Hr.
Qed.

(** The three calls of a run in which upload and render succeed, and how
    the outcomes of [queue_prompt] and [clean_file] combine. *)
Lemma img2img_submitted client_task_id params w image_bytes resp s1
    prompt_json r s2 c s3 :
  base64.b64decode (dict_get params "image") = Return image_bytes ->
  upload_image image_bytes (server w) = (Return resp, s1) ->
  img2img_prompt IMG2IMG_PROMPT_TEMPLATE
    (dict_get params "text") (image_path resp) = Return prompt_json ->
  queue_prompt client_task_id prompt_json s1 = (r, s2) ->
  clean_file true (image_path resp) s2 = (c, s3) ->
  img2img IMG2IMG_PROMPT_TEMPLATE client_task_id params w =
    (match c with Return _ => r | Raise e => Raise e end,
     World s3 (log w ++ [UploadImage image_bytes;
                         QueuePrompt client_task_id prompt_json;
                         CleanFile true (image_path resp)])).
Proof.
  intros Hd Hu Hr Hq Hc. rewrite (img2img_uploaded _ _ _ _ _ _ Hd Hu).
  simpl. rewrite Hr. run. rewrite Hq. simpl. rewrite Hc.
  rewrite <- !app_assoc. simpl. by destruct c.
Qed.

(** C7. When the upload call itself fails, [img2img] makes no
    [queue_prompt] and no [clean_file] call: the upload is the only call
    in the log, and the exception raised by [upload_image] is the one
    [img2img] raises. *)
Theorem img2img_upload_fails client_task_id params w image_bytes e s1 :
  base64.b64decode (dict_get params "image") = Return image_bytes ->
  upload_image image_bytes (server w) = (Raise e, s1) ->
  img2img IMG2IMG_PROMPT_TEMPLATE client_task_id params w =
    (Raise e, World s1 (log w ++ [UploadImage image_bytes])).
Proof. intros Hd Hu. unfold img2img. run. by rewrite Hd, Hu. Qed.

(** C3, as the code has it. When upload and render succeed and
    [queue_prompt] raises, [clean_file] is called exactly once, for the
    uploaded file's path and after the failed [queue_prompt]; then
    [img2img] raises: the submission error if [clean_file] returns, the
    exception of [clean_file] in its place if [clean_file] raises. *)
Theorem img2img_submit_fails client_task_id params w image_bytes resp s1
    prompt_json e s2 c s3 :
  base64.b64decode (dict_get params "image") = Return image_bytes ->
  upload_image image_bytes (server w) = (Return resp, s1) ->
  img2img_prompt IMG2IMG_PROMPT_TEMPLATE
    (dict_get params "text") (image_path resp) = Return prompt_json ->
  queue_prompt client_task_id prompt_json s1 = (Raise e, s2) ->
  clean_file true (image_path resp) s2 = (c, s3) ->
  img2img IMG2IMG_PROMPT_TEMPLATE client_task_id params w =
    (match c with
     | Return _ => Raise e
     | Raise cleanup_error => Raise cleanup_error
     end,
     World s3 (log w ++ [UploadImage image_bytes;
                         QueuePrompt client_task_id prompt_json;
                         CleanFile true (image_path resp)])).
Proof.
  intros Hd Hu Hr Hq Hc.
  by rewrite (img2img_submitted _ _ _ _ _ _ _ _ _ _ _ Hd Hu Hr Hq Hc).
Qed.

(** C2, as the code has it. When upload, render and [queue_prompt] succeed,
    [img2img] returns the record of [queue_prompt] if [clean_file] returns
    (whatever it returns), and raises the exception of [clean_file] in
    place of the record if [clean_file] raises. *)
Theorem img2img_cleanup_outcome client_task_id params w image_bytes resp s1
    prompt_json rec s2 c s3 :
  base64.b64decode (dict_get params "image") = Return image_bytes ->
  upload_image image_bytes (server w) = (Return resp, s1) ->
  img2img_prompt IMG2IMG_PROMPT_TEMPLATE
    (dict_get params "text") (image_path resp) = Return prompt_json ->
  queue_prompt client_task_id prompt_json s1 = (Return rec, s2) ->
  clean_file true (image_path resp) s2 = (c, s3) ->
  fst (img2img IMG2IMG_PROMPT_TEMPLATE client_task_id params w) =
    match c with
    | Return _ => Return rec
    | Raise e => Raise e
    end.
Proof.
  intros Hd Hu Hr Hq Hc.
  by rewrite (img2img_submitted _ _ _ _ _ _ _ _ _ _ _ Hd Hu Hr Hq Hc).
Qed.

(** C8. [text2img] renders once; when rendering raises, the exception
    leaves [text2img] with the world untouched (no backend call); when it
    returns a prompt, the single call made is [queue_prompt] with the
    task id and that prompt, and its outcome is the outcome of
    [text2img].  No [upload_image] or [clean_file] call is ever made. *)
Theorem text2img_calls client_task_id params w :
  text2img TEXT2IMG_PROMPT_TEMPLATE client_task_id params w =
    match text2img_prompt TEXT2IMG_PROMPT_TEMPLATE (dict_get params "text") with
    | Raise e => (Raise e, w)
    | Return prompt_json =>
        let '(r, s) := queue_prompt client_task_id prompt_json (server w) in
        (r, World s (log w ++ [QueuePrompt client_task_id prompt_json]))
    end.
Proof.
  unfold text2img. run.
  by destruct (text2img_prompt _ _).
Qed.

(** The rendered prompt depends on the substituted values through their
    [str] only. *)
Lemma text2img_prompt_str text text' :
  str text = str text' ->
  text2img_prompt TEXT2IMG_PROMPT_TEMPLATE text =
  text2img_prompt TEXT2IMG_PROMPT_TEMPLATE text'.
Proof.
  intros Hstr. unfold text2img_prompt, Template.substitute.
  rewrite (sub_str_ext {["text" := text]} {["text" := text']}); [done|].
  intros k. destruct (decide (k = "text")) as [->|Hk].
  - rewrite !lookup_singleton_eq. simpl. by rewrite Hstr.
  - by rewrite !lookup_singleton_ne.
Qed.

Lemma img2img_prompt_str text text' image :
  str text = str text' ->
  img2img_prompt IMG2IMG_PROMPT_TEMPLATE text image =
  img2img_prompt IMG2IMG_PROMPT_TEMPLATE text' image.
Proof.
  intros Hstr. unfold img2img_prompt, Template.substitute.
  rewrite (sub_str_ext (<["text" := text]> {["image" := PStr image]})
             (<["text" := text']> {["image" := PStr image]})); [done|].
  intros k. destruct (decide (k = "text")) as [->|Hk].
  - rewrite !lookup_insert_eq. simpl. by rewrite Hstr.
  - by rewrite !lookup_insert_ne.
Qed.

(** C9. Rendering is a function of the template and of the substituted
    strings: two renderings of a template with the same strings for
    [text] and [image] give the same outcome, the same job or the same
    exception. *)
Theorem render_deterministic text text' image image' :
  str text = str text' ->
  image = image' ->
  text2img_prompt TEXT2IMG_PROMPT_TEMPLATE text =
    text2img_prompt TEXT2IMG_PROMPT_TEMPLATE text' /\
  img2img_prompt IMG2IMG_PROMPT_TEMPLATE text image =
    img2img_prompt IMG2IMG_PROMPT_TEMPLATE text' image'.
Proof.
  intros Hstr <-. split.
  - by apply text2img_prompt_str.
  - by apply img2img_prompt_str.
Qed.


(** C5, as the code has it. The [image] parameter is decoded inside
    [img2img]: when [b64decode] raises, the exception leaves [img2img]
    before any backend call; when it returns, the first call is
    [upload_image] with the decoded bytes. *)
Theorem img2img_uploads_decoded client_task_id params w :
  match base64.b64decode (dict_get params "image") with
  | Raise e =>
      img2img IMG2IMG_PROMPT_TEMPLATE client_task_id params w = (Raise e, w)
  | Return image_bytes =>
      exists rest,
        log (snd (img2img IMG2IMG_PROMPT_TEMPLATE client_task_id params w)) =
          log w ++ UploadImage image_bytes :: rest
  end.
Proof.
  destruct (base64.b64decode _) as [image_bytes|e] eqn:Hd.
  - destruct (upload_image image_bytes (server w)) as [[resp|e] s1] eqn:Hu.
    + rewrite (img2img_uploaded _ _ _ _ _ _ Hd Hu). simpl.
      destruct (img2img_prompt _ _ _) as [prompt_json|e]; [|by exists []].
      run.
      destruct (queue_prompt _ _ _) as [r s2].
      destruct (clean_file _ _ _) as [[v|e] s3]; simpl;
        rewrite <- !app_assoc; eauto.
    + unfold img2img. run. rewrite Hd, Hu. by exists [].
  - by apply img2img_decode_fails.
Qed.

(** C6. The path is [subfolder/name] when the subfolder is not empty and
    [name] when it is; this path is the value substituted for [image] in
    the template and, when rendering succeeds, the argument of the
    [clean_file] call. *)
Theorem image_path_composition client_task_id params w image_bytes resp s1 :
  base64.b64decode (dict_get params "image") = Return image_bytes ->
  upload_image image_bytes (server w) = (Return resp, s1) ->
  image_path resp = spec_image_path resp /\
  img2img IMG2IMG_PROMPT_TEMPLATE client_task_id params w =
    let w1 := World s1 (log w ++ [UploadImage image_bytes]) in
    match
      prompt_str ← Template.substitute IMG2IMG_PROMPT_TEMPLATE
                     (<["text" := dict_get params "text"]>
                        {["image" := PStr (spec_image_path resp)]});
      json.loads prompt_str
    with
    | Raise e => (Raise e, w1)
    | Return prompt_json =>
        try_finally
          (await (QueuePrompt client_task_id prompt_json)
                 (queue_prompt client_task_id prompt_json))
          (await (CleanFile true (spec_image_path resp))
                 (clean_file true (spec_image_path resp))) w1
    end.
Proof.
  intros Hd Hu.
  assert (Hp : image_path resp = spec_image_path resp).
  { unfold image_path, spec_image_path.
    destruct (subfolder resp); by case_decide. }
  split; [done|].
  rewrite (img2img_uploaded _ _ _ _ _ _ Hd Hu). by rewrite Hp.
Qed.

End ServiceFacts.

(** ** What rendering does with the caller's text *)

Section RenderFacts.

(** C4, as the code has it. Rendering does not escape or encode.  Whatever
    the template, the text handed to [json.loads] is the template's literal
    text with the caller's text (and the image path) written in the place
    of every [text] (and [image]) placeholder, character for character; a
    placeholder of another name raises [KeyError] and a malformed one
    [ValueError].  The rendered job is what [json.loads] makes of that
    text. *)
Theorem render_does_not_escape
    (TEXT2IMG_PROMPT_TEMPLATE IMG2IMG_PROMPT_TEMPLATE text image : string) :
  text2img_prompt TEXT2IMG_PROMPT_TEMPLATE (PStr text) =
    (prompt_str ← fill {["text" := text]}
                    (template_parts Template.Literal TEXT2IMG_PROMPT_TEMPLATE) "";
     json.loads prompt_str) /\
  img2img_prompt IMG2IMG_PROMPT_TEMPLATE (PStr text) image =
    (prompt_str ← fill (<["text" := text]> {["image" := image]})
                    (template_parts Template.Literal IMG2IMG_PROMPT_TEMPLATE) "";
     json.loads prompt_str).
Proof.
  unfold text2img_prompt, img2img_prompt, Template.substitute.
  rewrite !sub_fill. split.
  - by rewrite map_fmap_singleton.
  - by rewrite fmap_insert, map_fmap_singleton.
Qed.

End RenderFacts.


(** ** The service at work on the demonstration backend *)

Section DemoFacts.

Import Demo.

(** The two examples of path composition. *)
Example image_path_with_subfolder :
  image_path (UploadResp "a.png" "x") = "x/a.png".
Proof. reflexivity. Qed.

Example image_path_without_subfolder :
  image_path (UploadResp "a.png" "") = "a.png".
Proof. reflexivity. Qed.

(** A text-to-image request, end to end. *)
Example text2img_red_fox :
  text2img TEXT2IMG_PROMPT_TEMPLATE 7 {["text" := PStr "a red fox"]}
    (idle None None None) =
  (Return (7, 0%nat),
   World (DemoServer [] [7] stored None None None)
     [QueuePrompt 7 (text2img_job "a red fox")]).
Proof. vm_compute. reflexivity. Qed.

(** An image-to-image request, end to end: the file is uploaded, used and
    removed. *)
Example img2img_make_it_winter :
  img2img IMG2IMG_PROMPT_TEMPLATE 9 (request "make it winter" "QUJD")
    (idle None None None) =
  (Return (9, 0%nat),
   World (DemoServer [] [9] stored None None None)
     [UploadImage ABC;
      QueuePrompt 9 (img2img_job "make it winter" "inputs/img123.png");
      CleanFile true "inputs/img123.png"]).
Proof. vm_compute. reflexivity. Qed.

(** A request without [text]: the prompt reads [None] and is queued. *)
Example text2img_without_text :
  text2img TEXT2IMG_PROMPT_TEMPLATE 7 ∅ (idle None None None) =
  (Return (7, 0%nat),
   World (DemoServer [] [7] stored None None None)
     [QueuePrompt 7 (text2img_job "None")]).
Proof. vm_compute. reflexivity. Qed.

(** C1. A text holding a double quote makes [json.loads] raise after the
    upload has succeeded: [img2img] raises at once, [clean_file] is never
    called and the uploaded file stays on the backend. *)
Theorem img2img_render_failure_skips_cleanup :
  img2img IMG2IMG_PROMPT_TEMPLATE 9 (request (q "say 'hi'") "QUJD")
    (idle None None None) =
  (Raise JSONDecodeError,
   World (DemoServer ["inputs/img123.png"] [] stored None None None)
     [UploadImage ABC]).
Proof.
  apply (img2img_render_fails IMG2IMG_PROMPT_TEMPLATE 9
           (request (q "say 'hi'") "QUJD") (idle None None None) ABC stored
           (DemoServer ["inputs/img123.png"] [] stored None None None)
           JSONDecodeError);
    vm_compute; reflexivity.
Qed.

Lemma img2img_upload_fails_witness :
  img2img IMG2IMG_PROMPT_TEMPLATE 9 (request "make it winter" "QUJD")
    (idle (Some (ClientError "upload refused")) None None) =
  (Raise (ClientError "upload refused"),
   World (DemoServer [] [] stored (Some (ClientError "upload refused")) None None)
     [UploadImage ABC]).
Proof.
  apply (img2img_upload_fails IMG2IMG_PROMPT_TEMPLATE 9
           (request "make it winter" "QUJD")
           (idle (Some (ClientError "upload refused")) None None) ABC
           (ClientError "upload refused")
           (DemoServer [] [] stored (Some (ClientError "upload refused")) None None));
    vm_compute; reflexivity.
Defined.

(** C3, refuted. [queue_prompt] raises and then [clean_file] raises too:
    [clean_file] has been called once, but what reaches the caller is the
    exception of [clean_file], not the submission error. *)
Lemma cleanup_failure_replaces_submit_error :
  let w := idle None (Some (ClientError "queue full"))
             (Some (ClientError "delete failed")) in
  let params := request "make it winter" "QUJD" in
  let job := img2img_job "make it winter" "inputs/img123.png" in
  base64.b64decode (dict_get params "image") = Return ABC /\
  fst (upload_image ABC (server w)) = Return stored /\
  img2img_prompt IMG2IMG_PROMPT_TEMPLATE (dict_get params "text")
    (image_path stored) = Return job /\
  fst (queue_prompt 9 job (snd (upload_image ABC (server w)))) =
    Raise (ClientError "queue full") /\
  log (snd (img2img IMG2IMG_PROMPT_TEMPLATE 9 params w)) =
    [UploadImage ABC; QueuePrompt 9 job; CleanFile true "inputs/img123.png"] /\
  fst (img2img IMG2IMG_PROMPT_TEMPLATE 9 params w) =
    Raise (ClientError "delete failed") /\
  fst (img2img IMG2IMG_PROMPT_TEMPLATE 9 params w) <>
    Raise (ClientError "queue full").
Proof. vm_compute. repeat split; discriminate. Qed.

Lemma img2img_submit_fails_witness :
  img2img IMG2IMG_PROMPT_TEMPLATE 9 (request "make it winter" "QUJD")
    (idle None (Some (ClientError "queue full")) None) =
  (match Return PNone with
   | Return _ => Raise (ClientError "queue full")
   | Raise cleanup_error => Raise cleanup_error
   end,
   World (DemoServer [] [] stored None (Some (ClientError "queue full")) None)
     ([] ++ [UploadImage ABC;
             QueuePrompt 9 (img2img_job "make it winter" "inputs/img123.png");
             CleanFile true (image_path stored)])).
Proof.
  apply (img2img_submit_fails IMG2IMG_PROMPT_TEMPLATE 9
           (request "make it winter" "QUJD")
           (idle None (Some (ClientError "queue full")) None)
           ABC stored
           (DemoServer ["inputs/img123.png"] [] stored None
              (Some (ClientError "queue full")) None)
           (img2img_job "make it winter" "inputs/img123.png")
           (ClientError "queue full")
           (DemoServer ["inputs/img123.png"] [] stored None
              (Some (ClientError "queue full")) None)
           (Return PNone));
    vm_compute; reflexivity.
Defined.

(** C2, refuted. [queue_prompt] accepts the job and returns its record,
    [clean_file] raises, and [img2img] raises that exception: the caller
    does not get the record. *)
Lemma cleanup_failure_replaces_record :
  let w := idle None None (Some (ClientError "delete failed")) in
  let params := request "make it winter" "QUJD" in
  let job := img2img_job "make it winter" "inputs/img123.png" in
  base64.b64decode (dict_get params "image") = Return ABC /\
  fst (upload_image ABC (server w)) = Return stored /\
  img2img_prompt IMG2IMG_PROMPT_TEMPLATE (dict_get params "text")
    (image_path stored) = Return job /\
  fst (queue_prompt 9 job (snd (upload_image ABC (server w)))) =
    Return (9, 0%nat) /\
  fst (img2img IMG2IMG_PROMPT_TEMPLATE 9 params w) =
    Raise (ClientError "delete failed") /\
  fst (img2img IMG2IMG_PROMPT_TEMPLATE 9 params w) <> Return (9, 0%nat).
Proof. vm_compute. repeat split; discriminate. Qed.

Lemma img2img_cleanup_outcome_witness :
  fst (img2img IMG2IMG_PROMPT_TEMPLATE 9 (request "make it winter" "QUJD")
         (idle None None None)) =
  match Return PNone with
  | Return _ => Return (9, 0%nat)
  | Raise e => Raise e
  end.
Proof.
  apply (img2img_cleanup_outcome IMG2IMG_PROMPT_TEMPLATE 9
           (request "make it winter" "QUJD") (idle None None None)
           ABC stored
           (DemoServer ["inputs/img123.png"] [] stored None None None)
           (img2img_job "make it winter" "inputs/img123.png")
           (9, 0%nat)
           (DemoServer ["inputs/img123.png"] [9] stored None None None)
           (Return PNone)
           (DemoServer [] [9] stored None None None));
    vm_compute; reflexivity.
Defined.

(** C4, refuted. The text is not escaped: a double quote inside it ends the
    JSON string it was meant to stay in.  One text makes rendering fail;
    another one renders, to a job with an entry that the template does not
    have and a prompt that is not the caller's text. *)
Lemma text_is_not_escaped :
  let broken := q "a 'red' fox" in
  let crafted := q "fox', 'seed': '7" in
  text2img_prompt TEXT2IMG_PROMPT_TEMPLATE (PStr broken) = Raise JSONDecodeError /\
  text2img_prompt TEXT2IMG_PROMPT_TEMPLATE (PStr crafted) =
    Return (json.JDict
      [("6", json.JDict
               [("class_type", json.JStr "CLIPTextEncode");
                ("inputs", json.JDict [("text", json.JStr "fox");
                                       ("seed", json.JStr "7")])])]) /\
  text2img_prompt TEXT2IMG_PROMPT_TEMPLATE (PStr crafted) <>
    Return (text2img_job crafted).
Proof. vm_compute. repeat split; discriminate. Qed.

(** C5, refuted. The caller's payload is the four characters [QUJD]; what
    [upload_image] receives is the three bytes they encode. *)
Lemma upload_payload_is_decoded :
  let image := "QUJD" in
  head (log (snd (img2img IMG2IMG_PROMPT_TEMPLATE 9
                    (request "make it winter" image) (idle None None None)))) =
    Some (UploadImage ABC) /\
  head (log (snd (img2img IMG2IMG_PROMPT_TEMPLATE 9
                    (request "make it winter" image) (idle None None None)))) <>
    Some (UploadImage (list_byte_of_string image)).
Proof. vm_compute. split; [reflexivity | discriminate]. Qed.

(** A payload that is not base64 text never reaches the backend. *)
Example img2img_undecodable_image :
  img2img IMG2IMG_PROMPT_TEMPLATE 9 (request "make it winter" "A")
    (idle None None None) =
  (Raise BinasciiError, idle None None None).
Proof. vm_compute. reflexivity. Qed.

Lemma image_path_composition_witness :
  image_path stored = spec_image_path stored /\
  img2img IMG2IMG_PROMPT_TEMPLATE 9 (request "make it winter" "QUJD")
    (idle None None None) =
  (Return (9, 0%nat),
   World (DemoServer [] [9] stored None None None)
     [UploadImage ABC;
      QueuePrompt 9 (img2img_job "make it winter" "inputs/img123.png");
      CleanFile true "inputs/img123.png"]).
Proof.
  generalize (image_path_composition IMG2IMG_PROMPT_TEMPLATE 9
                (request "make it winter" "QUJD") (idle None None None)
                ABC stored
                (DemoServer ["inputs/img123.png"] [] stored None None None)).
  vm_compute. intros W. apply W; reflexivity.
Defined.

Lemma render_deterministic_witness :
  text2img_prompt TEXT2IMG_PROMPT_TEMPLATE (PInt 7) =
    text2img_prompt TEXT2IMG_PROMPT_TEMPLATE (PStr "7") /\
  img2img_prompt IMG2IMG_PROMPT_TEMPLATE (PInt 7) "a.png" =
    img2img_prompt IMG2IMG_PROMPT_TEMPLATE (PStr "7") "a.png".
Proof.
  apply (render_deterministic TEXT2IMG_PROMPT_TEMPLATE IMG2IMG_PROMPT_TEMPLATE
           (PInt 7) (PStr "7") "a.png" "a.png");
    reflexivity.
Defined.



(** The same request, run: both operations submit a prompt that reads
    [None]. *)
Example img2img_without_text :
  img2img IMG2IMG_PROMPT_TEMPLATE 7 {["image" := PStr "QUJD"]}
    (idle None None None) =
  (Return (7, 0%nat),
   World (DemoServer [] [7] stored None None None)
     [UploadImage ABC;
      QueuePrompt 7 (img2img_job "None" "inputs/img123.png");
      CleanFile true "inputs/img123.png"]).
Proof. vm_compute. reflexivity. Qed.

(** The parts of a template in which every form occurs. *)
Example template_parts_forms :
  template_parts Template.Literal "a$x${y}$$b$" =
  [Piece "a"; Hole "x"; Hole "y"; Piece "$"; Piece "b"; Invalid].
Proof. reflexivity. Qed.

(** A text with a double quote, as [render_does_not_escape] has it: the
    quote is handed to [json.loads] as it is. *)
Example fill_with_quote :
  fill {["text" := q "a 'red' fox"]}
    (template_parts Template.Literal TEXT2IMG_PROMPT_TEMPLATE) "" =
  Return (q "{'6': {'class_type': 'CLIPTextEncode', 'inputs': {'text': 'a 'red' fox'}}}").
Proof. vm_compute. reflexivity. Qed.

(** [str] of a [bytes] object. *)
Example str_bytes :
  str (PBytes ["a"; "'"; "010"; "255"; "\"]%byte) =
  String "b" (String (ascii_of_N 34) "a'\n\xff\\" +:+ String (ascii_of_N 34) "").
Proof. vm_compute. reflexivity. Qed.

End DemoFacts.

(** * Further properties of the service *)

(** ** Which exceptions the decoding raises *)

Section LocalErrors.


End LocalErrors.

(** ** Every run of the service *)

Section ServiceRuns.

Context {backend record : Type} `{!ComfyServer backend record}.
Variable TEXT2IMG_PROMPT_TEMPLATE : string.
Variable IMG2IMG_PROMPT_TEMPLATE : string.

Implicit Types (w : world backend) (params : gmap string pyval).

Ltac run := unfold mbind, task_bind, lift, await, try_finally; simpl.

(** X1. A request without an [image] entry, or whose [image] is [None], a
    [bool] or an [int], makes [img2img] raise [TypeError] (from
    [b64decode], line 25) before anything is sent to the backend. *)
Theorem img2img_image_not_text client_task_id params w :
  params !! "image" = None \/ dict_get params "image" = PNone \/
  (exists b, dict_get params "image" = PBool b) \/
  (exists z, dict_get params "image" = PInt z) ->
  img2img IMG2IMG_PROMPT_TEMPLATE client_task_id params w = (Raise TypeError, w).
Proof.
  intros Himage. apply img2img_decode_fails.
  destruct Himage as [Hno|[->|[[b ->]|[z ->]]]]; try done.
  unfold dict_get. by rewrite Hno.
Qed.

(** X2. The calls of any run of [img2img] have one of three shapes: none
    (the image could not be decoded), the upload alone (the upload, or the
    rendering after it, raised), or upload, [queue_prompt] and
    [clean_file], in this order.  Earlier entries of the log are kept.  So
    [clean_file] is never called without a [queue_prompt] before it, never
    for another path than that of this request's upload and never with
    [is_input] false; and a run that makes fewer than three calls ends in
    an exception. *)
Theorem img2img_calls client_task_id params w :
  let '(result, w') :=
    img2img IMG2IMG_PROMPT_TEMPLATE client_task_id params w in
  (w' = w /\
   exists e, result = Raise e /\
             base64.b64decode (dict_get params "image") = Raise e) \/
  (exists image_bytes e,
     base64.b64decode (dict_get params "image") = Return image_bytes /\
     log w' = log w ++ [UploadImage image_bytes] /\
     result = Raise e) \/
  (exists image_bytes resp prompt_json,
     base64.b64decode (dict_get params "image") = Return image_bytes /\
     fst (upload_image image_bytes (server w)) = Return resp /\
     img2img_prompt IMG2IMG_PROMPT_TEMPLATE (dict_get params "text")
       (image_path resp) = Return prompt_json /\
     log w' = log w ++ [UploadImage image_bytes;
                        QueuePrompt client_task_id prompt_json;
                        CleanFile true (image_path resp)]).
Proof.
  destruct (base64.b64decode (dict_get params "image"))
    as [image_bytes|e] eqn:Hd.
  - destruct (upload_image image_bytes (server w)) as [[resp|e] s1] eqn:Hu.
    + destruct (img2img_prompt IMG2IMG_PROMPT_TEMPLATE
                  (dict_get params "text") (image_path resp))
        as [prompt_json|e] eqn:Hr.
      * destruct (queue_prompt client_task_id prompt_json s1) as [r s2] eqn:Hq.
        destruct (clean_file true (image_path resp) s2) as [c s3] eqn:Hc.
        rewrite (img2img_submitted _ _ _ _ _ _ _ _ _ _ _ _ Hd Hu Hr Hq Hc).
        right; right. exists image_bytes, resp, prompt_json.
        by rewrite Hu.
      * rewrite (img2img_render_fails _ _ _ _ _ _ _ _ Hd Hu Hr).
        right; left. by exists image_bytes, e.
    + unfold img2img. run. rewrite Hd, Hu.
      right; left. by exists image_bytes, e.
  - rewrite (img2img_decode_fails _ _ _ _ _ Hd). left. eauto.
Qed.

(** X3. A record returned by [img2img] is the record that [queue_prompt]
    returned for this task id and the rendered prompt, and by then
    [clean_file] has been called for the uploaded file and has returned:
    [img2img] never returns a record of its own making, nor one whose
    upload it has not cleaned. *)
Theorem img2img_returns client_task_id params w rec w' :
  img2img IMG2IMG_PROMPT_TEMPLATE client_task_id params w = (Return rec, w') ->
  exists image_bytes resp s1 prompt_json s2 v,
    base64.b64decode (dict_get params "image") = Return image_bytes /\
    upload_image image_bytes (server w) = (Return resp, s1) /\
    img2img_prompt IMG2IMG_PROMPT_TEMPLATE (dict_get params "text")
      (image_path resp) = Return prompt_json /\
    queue_prompt client_task_id prompt_json s1 = (Return rec, s2) /\
    clean_file true (image_path resp) s2 = (Return v, server w') /\
    log w' = log w ++ [UploadImage image_bytes;
                       QueuePrompt client_task_id prompt_json;
                       CleanFile true (image_path resp)].
Proof.
  destruct (base64.b64decode (dict_get params "image"))
    as [image_bytes|e] eqn:Hd;
    [|by rewrite (img2img_decode_fails _ _ _ _ _ Hd)].
  destruct (upload_image image_bytes (server w)) as [[resp|e] s1] eqn:Hu;
    [|unfold img2img; run; by rewrite Hd, Hu].
  destruct (img2img_prompt IMG2IMG_PROMPT_TEMPLATE
              (dict_get params "text") (image_path resp))
    as [prompt_json|e] eqn:Hr;
    [|by rewrite (img2img_render_fails _ _ _ _ _ _ _ _ Hd Hu Hr)].
  destruct (queue_prompt client_task_id prompt_json s1) as [r s2] eqn:Hq.
  destruct (clean_file true (image_path resp) s2) as [c s3] eqn:Hc.
  rewrite (img2img_submitted _ _ _ _ _ _ _ _ _ _ _ _ Hd Hu Hr Hq Hc).
  destruct c as [v|e]; [|done]. destruct r as [rec'|e]; [|done].
  intros [= <- <-]. by exists image_bytes, resp, s1, prompt_json, s2, v.
Qed.

End ServiceRuns.

(** ** [base64.b64decode] and the standard encoding *)

Section Base64Facts.

Import base64.
Local Open Scope N_scope.

Lemma forallb_below (P : N -> bool) (k : nat) :
  forallb P (map N.of_nat (seq 0 k)) = true ->
  forall n, n < N.of_nat k -> P n = true.
Proof.
  intros Hall n Hn. rewrite forallb_forall in Hall. apply Hall.
  apply in_map_iff. exists (N.to_nat n). split; [lia|].
  apply in_seq. lia.
Qed.

Lemma sextet_table n :
  n < 64 ->
  table_a2b_base64 (table_b2a_base64 n) = Some n /\
  Ascii.eqb (table_b2a_base64 n) BASE64_PAD = false /\
  N_of_ascii (table_b2a_base64 n) < 128.
Proof.
  intros Hn.
  assert (H : sextet_ok n = true).
  { apply (forallb_below sextet_ok 64); [by vm_compute|done]. }
  unfold sextet_ok in H. rewrite !andb_true_iff in H.
  destruct H as [[H1 H2] H3].
  apply bool_decide_eq_true in H1. apply negb_true_iff in H2.
  apply N.ltb_lt in H3. done.
Qed.

Lemma byte_facts (x : byte) : byte_ok (Byte.to_N x) = true.
Proof.
  apply (forallb_below byte_ok 256); [by vm_compute|].
  pose proof (Byte.to_N_bounded x). lia.
Qed.

Lemma pair_facts (x y : byte) : pair_ok (Byte.to_N x) (Byte.to_N y) = true.
Proof.
  assert (H : forallb (fun a => forallb (pair_ok a) (map N.of_nat (seq 0 256)))
                (map N.of_nat (seq 0 256)) = true) by (by vm_compute).
  pose proof (Byte.to_N_bounded x). pose proof (Byte.to_N_bounded y).
  assert (Hx := forallb_below _ 256 H (Byte.to_N x) ltac:(lia)).
  cbv beta in Hx. apply (forallb_below _ 256 Hx). lia.
Qed.

Lemma byte_bits (x : byte) :
  let a := Byte.to_N x in
  N.shiftr a 2 < 64 /\ N.shiftl (N.land a 3) 4 < 64 /\
  N.shiftl (N.land a 15) 2 < 64 /\ N.land a 63 < 64 /\
  N.lor (N.shiftl (N.shiftr a 2) 2) (N.shiftr (N.shiftl (N.land a 3) 4) 4) = a /\
  N.lor (N.shiftl (N.shiftr a 4) 4) (N.land a 15) = a /\
  N.lor (N.shiftl (N.shiftr a 6) 6) (N.land a 63) = a /\
  N.shiftr (N.shiftl (N.land a 15) 2) 2 = N.land a 15.
Proof.
  pose proof (byte_facts x) as H. unfold byte_ok in H.
  rewrite !andb_true_iff, !N.ltb_lt, !N.eqb_eq in H. cbv zeta. tauto.
Qed.

Lemma pair_bits (x y : byte) :
  let a := Byte.to_N x in
  let b := Byte.to_N y in
  let s := N.lor (N.shiftl (N.land a 3) 4) (N.shiftr b 4) in
  let t := N.lor (N.shiftl (N.land a 15) 2) (N.shiftr b 6) in
  s < 64 /\ N.lor (N.shiftl (N.shiftr a 2) 2) (N.shiftr s 4) = a /\
  N.land s 15 = N.shiftr b 4 /\
  t < 64 /\ N.shiftr t 2 = N.land a 15 /\ N.land t 3 = N.shiftr b 6.
Proof.
  pose proof (pair_facts x y) as H. unfold pair_ok in H. cbv zeta in *.
  rewrite !andb_true_iff, !N.ltb_lt, !N.eqb_eq in H. tauto.
Qed.

Lemma to_uchar_to_N (x : byte) : to_uchar (Byte.to_N x) = x.
Proof. by destruct x. Qed.

Lemma a2b_step n rest st :
  n < 64 ->
  a2b_loop (String (table_b2a_base64 n) rest) st = a2b_loop rest (a2b_data st n).
Proof.
  intros (Ht & Hp & _)%sextet_table. simpl. by rewrite Hp, Ht.
Qed.

Lemma list_ind3 {A} (P : list A -> Prop) :
  P [] -> (forall a, P [a]) -> (forall a b, P [a; b]) ->
  (forall a b c l, P l -> P (a :: b :: c :: l)) ->
  forall l, P l.
Proof.
  intros H0 H1 H2 H3. fix IH 1.
  intros [|a [|b [|c l]]]; [done..|]. apply H3, IH.
Qed.

Lemma a2b_loop_b64encode data : forall out,
  a2b_loop (b64encode data) (A2B 0 0 0 out) = Return (out ++ data).
Proof.
  induction data as [|a|a b|a b c data IH] using list_ind3; intros out.
  - simpl. by rewrite app_nil_r.
  - destruct (byte_bits a) as (A1 & A2 & _ & _ & A5 & _).
    cbn [b64encode]. rewrite !a2b_step by done.
    simpl. by rewrite A5, to_uchar_to_N.
  - destruct (byte_bits a) as (A1 & _).
    destruct (byte_bits b) as (_ & _ & B3 & _ & _ & B6 & _ & B8).
    destruct (pair_bits a b) as (P1 & P2 & P3 & _).
    cbn [b64encode]. rewrite !a2b_step by done.
    simpl. rewrite P2, P3, B8, B6, !to_uchar_to_N.
    by rewrite <- app_assoc.
  - destruct (byte_bits a) as (A1 & _).
    destruct (byte_bits b) as (_ & _ & _ & _ & _ & B6 & _).
    destruct (byte_bits c) as (_ & _ & _ & C4 & _ & _ & C7 & _).
    destruct (pair_bits a b) as (P1 & P2 & P3 & _).
    destruct (pair_bits b c) as (_ & _ & _ & Q4 & Q5 & Q6).
    cbn [b64encode]. unfold b2a_group. rewrite !a2b_step by done.
    unfold a2b_data; simpl. rewrite P2, P3, Q5, Q6, B6, C7, !to_uchar_to_N.
    rewrite IH. by rewrite <- !app_assoc.
Qed.

Lemma isascii_b64encode data : isascii (b64encode data) = true.
Proof.
  assert (Hc : forall n rest, n < 64 -> isascii rest = true ->
               isascii (String (table_b2a_base64 n) rest) = true).
  { intros n rest (_ & _ & Hn)%sextet_table Hrest. simpl.
    rewrite Hrest. by apply N.ltb_lt in Hn as ->. }
  induction data as [|a|a b|a b c data IH] using list_ind3.
  - done.
  - destruct (byte_bits a) as (A1 & A2 & _).
    cbn [b64encode]. by repeat (apply Hc; [done|]).
  - destruct (byte_bits a) as (A1 & _).
    destruct (byte_bits b) as (_ & _ & B3 & _).
    destruct (pair_bits a b) as (P1 & _).
    cbn [b64encode]. by repeat (apply Hc; [done|]).
  - destruct (byte_bits a) as (A1 & _).
    destruct (byte_bits c) as (_ & _ & _ & C4 & _).
    destruct (pair_bits a b) as (P1 & _).
    destruct (pair_bits b c) as (_ & _ & _ & Q4 & _).
    cbn [b64encode]. unfold b2a_group. by repeat (apply Hc; [done|]).
Qed.


Local Close Scope N_scope.
Local Open Scope nat_scope.

Lemma a2b_loop_only_base64 s : forall st,
  a2b_loop (only_base64 s) st = a2b_loop s st.
Proof.
  induction s as [|c rest IH]; intros st; [done|].
  simpl. unfold is_base64_char.
  destruct (Ascii.eqb c BASE64_PAD) eqn:Hpad; simpl.
  - rewrite Hpad. by repeat case_match.
  - destruct (table_a2b_base64 c) as [this_ch|] eqn:Ht; simpl.
    + by rewrite Hpad, Ht.
    + apply IH.
Qed.

Lemma isascii_only_base64 s : isascii (only_base64 s) = true.
Proof.
  induction s as [|c rest IH]; [done|]. simpl.
  destruct (is_base64_char c) eqn:Hc; [|done]. simpl. rewrite IH, andb_true_r.
  unfold is_base64_char in Hc. apply orb_prop in Hc as [Hc|Hc].
  - apply Ascii.eqb_eq in Hc as ->. done.
  - apply bool_decide_eq_true in Hc as [n Hn]. apply N.ltb_lt.
    unfold table_a2b_base64 in Hn.
    repeat case_match; try done;
      repeat match goal with
             | H : (_ && _) = true |- _ => apply andb_prop in H as [? ?]
             | H : (_ <=? _)%N = true |- _ => apply N.leb_le in H
             | H : (_ =? _)%N = true |- _ => apply N.eqb_eq in H
             end; lia.
Qed.

Lemma a2b_loop_length data : forall st bs,
  a2b_loop data st = Return bs ->
  4 * length bs <=
    4 * length (bin_data st) + 3 * String.length data + credit (quad_pos st).
Proof.
  induction data as [|c rest IH]; intros st bs; simpl.
  - case_match; [|done]. intros [= <-]. lia.
  - repeat case_match; try (intros [= <-]; lia).
    all: intros Hrec%IH; revert Hrec; try (simpl; lia).
    unfold a2b_data.
    destruct (quad_pos st) as [|[[|[]|]|[|[]|]|]]; simpl;
      rewrite ?length_app; simpl; lia.
Qed.

End Base64Facts.

(** ** More on [json.loads] *)

Section JsonValues.

Import json.
Local Open Scope nat_scope.

Lemma scanstring_copies text : forall rest acc,
  plain_text text = true ->
  scanstring (text +:+ rest) acc = scanstring rest (acc +:+ text).
Proof.
  induction text as [|c text IH]; intros rest acc Hp; simpl.
  - by rewrite append_nil_r.
  - simpl in Hp. rewrite !andb_true_iff, !negb_true_iff in Hp.
    destruct Hp as [[[H1 H2] H3] Hp]. rewrite H1, H2, H3, IH by done.
    unfold snoc. by rewrite append_assoc.
Qed.

Lemma scan_once_S depth s :
  scan_once (S depth) s =
    match s with
    | EmptyString => Raise JSONDecodeError
    | String c rest =>
        if (N_of_ascii c =? 34)%N then
          '(str, r) ← scanstring rest EmptyString; Return (JStr str, r)
        else if (N_of_ascii c =? 123)%N then
          match skip_whitespace rest with
          | String c1 r1 =>
              if (N_of_ascii c1 =? 125)%N then Return (JDict [], r1)
              else parse_pairs depth (String c1 r1) []
          | EmptyString => Raise JSONDecodeError
          end
        else if (N_of_ascii c =? 91)%N then
          match skip_whitespace rest with
          | String c1 r1 =>
              if (N_of_ascii c1 =? 93)%N then Return (JList [], r1)
              else parse_items depth (String c1 r1) []
          | EmptyString => Raise JSONDecodeError
          end
        else
          match scan_constant s with
          | Some res => Return res
          | None => Raise JSONDecodeError
          end
    end.
Proof. reflexivity. Qed.

Lemma parse_items_S depth s acc :
  parse_items (S depth) s acc =
    '(val, r) ← scan_once depth s;
    match skip_whitespace r with
    | String c r1 =>
        if (N_of_ascii c =? 93)%N then Return (JList (acc ++ [val]), r1)
        else if (N_of_ascii c =? 44)%N then
          parse_items depth (skip_whitespace r1) (acc ++ [val])
        else Raise JSONDecodeError
    | EmptyString => Raise JSONDecodeError
    end.
Proof. reflexivity. Qed.

Lemma parse_pairs_S depth s acc :
  parse_pairs (S depth) s acc =
    match s with
    | String q rest =>
        if (N_of_ascii q =? 34)%N then
          '(key, r) ← scanstring rest EmptyString;
          match skip_whitespace r with
          | String colon r1 =>
              if (N_of_ascii colon =? 58)%N then
                '(val, r2) ← scan_once depth (skip_whitespace r1);
                match skip_whitespace r2 with
                | String c r3 =>
                    if (N_of_ascii c =? 125)%N then
                      Return (JDict (setitem acc key val), r3)
                    else if (N_of_ascii c =? 44)%N then
                      parse_pairs depth (skip_whitespace r3)
                        (setitem acc key val)
                    else Raise JSONDecodeError
                | EmptyString => Raise JSONDecodeError
                end
              else Raise JSONDecodeError
          | EmptyString => Raise JSONDecodeError
          end
        else Raise JSONDecodeError
    | EmptyString => Raise JSONDecodeError
    end.
Proof. reflexivity. Qed.

Lemma scan_deeper depth :
  (forall s, scan_once depth s <> Raise RecursionError ->
             scan_once (S depth) s = scan_once depth s) /\
  (forall s acc, parse_items depth s acc <> Raise RecursionError ->
                 parse_items (S depth) s acc = parse_items depth s acc) /\
  (forall s acc, parse_pairs depth s acc <> Raise RecursionError ->
                 parse_pairs (S depth) s acc = parse_pairs depth s acc).
Proof.
  induction depth as [|depth (IHs & IHi & IHp)]; [by repeat split|].
  repeat split.
  - intros s. rewrite (scan_once_S (S depth)), (scan_once_S depth).
    destruct s as [|c rest]; [done|].
    repeat case_match; try done; intros Hr; by first [apply IHp | apply IHi].
  - intros s acc. rewrite (parse_items_S (S depth)), (parse_items_S depth).
    unfold mbind, outcome_bind.
    destruct (scan_once depth s) as [[val r0]|e] eqn:E.
    + rewrite IHs, E by (by rewrite E).
      repeat case_match; try done; intros Hr; by apply IHi.
    + intros Hr. rewrite IHs, E; [done|]. by rewrite E.
  - intros s acc. rewrite (parse_pairs_S (S depth)), (parse_pairs_S depth).
    unfold mbind, outcome_bind.
    destruct s as [|c rest]; [done|].
    destruct (N_of_ascii c =? 34)%N; [|done].
    destruct (scanstring rest "") as [[key r0]|e]; [|done].
    destruct (skip_whitespace r0) as [|colon r1]; [done|].
    destruct (N_of_ascii colon =? 58)%N; [|done].
    destruct (scan_once depth (skip_whitespace r1)) as [[val r2]|e] eqn:E.
    + rewrite IHs, E by (by rewrite E).
      repeat case_match; try done; intros Hr; by apply IHp.
    + intros Hr. rewrite IHs, E; [done|]. by rewrite E.
Qed.

Lemma scan_once_depth d1 d2 s :
  (d1 <= d2)%nat ->
  scan_once d1 s <> Raise RecursionError ->
  scan_once d2 s = scan_once d1 s.
Proof.
  induction 1 as [|d2 Hle IH]; [done|]. intros Hr.
  rewrite <- IH by done. apply scan_deeper. by rewrite IH.
Qed.

Lemma loads_at_depth depth s v rest :
  scan_once depth (skip_whitespace s) = Return (v, rest) ->
  skip_whitespace rest = EmptyString ->
  loads s = Return v.
Proof.
  intros Hscan Hrest. unfold loads.
  assert (scan_once (2 * String.length s + 1) (skip_whitespace s) =
          Return (v, rest)) as ->.
  { destruct (Nat.le_ge_cases depth (2 * String.length s + 1)).
    - rewrite <- Hscan. apply scan_once_depth; [done|]. by rewrite Hscan.
    - rewrite <- Hscan. symmetry. apply scan_once_depth; [done|].
      apply scan_depth_enough. pose proof (skip_whitespace_length s). lia. }
  unfold mbind, outcome_bind. by rewrite Hrest.
Qed.

Lemma demo_text2img_plain text :
  plain_text text = true ->
  text2img_prompt Demo.TEXT2IMG_PROMPT_TEMPLATE (PStr text) =
    Return (Demo.text2img_job text).
Proof.
  intros Hp. unfold text2img_prompt.
  rewrite (substitute_one _
             (q "{'6': {'class_type': 'CLIPTextEncode', 'inputs': {'text': '")
             "text" (q "'}}}") (PStr text)); [|done..].
  unfold mbind, outcome_bind. simpl str.
  apply (loads_at_depth 8 _ _ EmptyString); [|done].
  simpl. rewrite scanstring_copies by done. simpl. done.
Qed.

Lemma setitem_keys d key v :
  map fst (setitem d key v) =
    if bool_decide (key ∈ map fst d) then map fst d else map fst d ++ [key].
Proof.
  induction d as [|[k w] d IH]; cbn [map setitem fst].
  - case_bool_decide as Hin; [|done]. by apply elem_of_nil in Hin.
  - destruct (String.eqb_spec k key) as [->|Hne]; cbn [map fst].
    + by rewrite bool_decide_eq_true_2 by apply list_elem_of_here.
    + rewrite IH. repeat case_bool_decide; try done; exfalso.
      * by match goal with H : ¬ _ |- _ => apply H; apply list_elem_of_further end.
      * match goal with H : _ ∈ _ :: _ |- _ =>
          apply elem_of_cons in H as [->|]; done end.
Qed.

Lemma setitem_NoDup d key v :
  NoDup (map fst d) -> NoDup (map fst (setitem d key v)).
Proof.
  intros Hd. rewrite setitem_keys. case_bool_decide as Hin; [done|].
  apply NoDup_app. split_and!; [done| |apply NoDup_singleton].
  intros x Hx ->%list_elem_of_singleton. done.
Qed.

Lemma setitem_values_distinct d key v :
  values_distinct d = true -> distinct_keys v = true ->
  values_distinct (setitem d key v) = true.
Proof.
  unfold values_distinct. intros Hd Hv.
  induction d as [|[k w] d IH]; simpl in *.
  - by rewrite Hv.
  - apply andb_prop in Hd as [Hw Hd].
    destruct (String.eqb k key); simpl; [by rewrite Hv, Hd|].
    by rewrite Hw, IH.
Qed.

Lemma scan_constant_distinct s v r :
  scan_constant s = Some (v, r) -> distinct_keys v = true.
Proof.
  unfold scan_constant, match_number, mbind, option_bind.
  repeat case_match; intros; by simplify_eq.
Qed.

Lemma scan_distinct_keys depth :
  (forall s v r, scan_once depth s = Return (v, r) -> distinct_keys v = true) /\
  (forall s acc v r,
     forallb distinct_keys acc = true ->
     parse_items depth s acc = Return (v, r) -> distinct_keys v = true) /\
  (forall s acc v r,
     NoDup (map fst acc) -> values_distinct acc = true ->
     parse_pairs depth s acc = Return (v, r) -> distinct_keys v = true).
Proof.
  induction depth as [|depth (IHs & IHi & IHp)]; [by repeat split|].
  repeat split.
  - intros s v r. rewrite scan_once_S. unfold mbind, outcome_bind.
    destruct s as [|c rest]; [done|].
    repeat case_match; subst; try done;
      first [ by intros [= <- <-]
            | intros [= ->]; by eapply scan_constant_distinct
            | apply IHp; [apply NoDup_nil_2 | done]
            | by apply IHi ].
  - intros s acc v r Hacc. rewrite parse_items_S. unfold mbind, outcome_bind.
    destruct (scan_once depth s) as [[val r0]|e] eqn:E; [|done].
    apply IHs in E.
    assert (forallb distinct_keys (acc ++ [val]) = true).
    { rewrite forallb_app. simpl. by rewrite Hacc, E. }
    repeat case_match; subst; try done;
      first [ by intros [= <- <-] | by apply IHi ].
  - intros s acc v r Hnd Hacc. rewrite parse_pairs_S.
    unfold mbind, outcome_bind.
    destruct s as [|c rest]; [done|].
    destruct (N_of_ascii c =? 34)%N; [|done].
    destruct (scanstring rest "") as [[key r0]|e]; [|done].
    destruct (skip_whitespace r0) as [|colon r1]; [done|].
    destruct (N_of_ascii colon =? 58)%N; [|done].
    destruct (scan_once depth (skip_whitespace r1)) as [[val r2]|e] eqn:E;
      [|done].
    apply IHs in E.
    pose proof (setitem_NoDup acc key val Hnd).
    pose proof (setitem_values_distinct acc key val Hacc E) as Hv.
    repeat case_match; subst; try done.
    + intros [= <- <-]. simpl. rewrite bool_decide_eq_true_2 by done. exact Hv.
    + by apply IHp.
Qed.

Lemma loads_distinct_keys s v : loads s = Return v -> distinct_keys v = true.
Proof.
  unfold loads, mbind, outcome_bind.
  destruct (scan_once _ _) as [[obj rest]|e] eqn:E; [|done].
  apply scan_distinct_keys in E.
  destruct (skip_whitespace rest); [|done]. by intros [= <-].
Qed.

End JsonValues.

(** ** What the decoding of the image accepts and gives *)

Section ImagePayload.

Context {backend record : Type} `{!ComfyServer backend record}.
Variable TEXT2IMG_PROMPT_TEMPLATE : string.
Variable IMG2IMG_PROMPT_TEMPLATE : string.

Implicit Types (w : world backend) (params : gmap string pyval).


(** X7. Characters outside the base64 alphabet (spaces, line breaks, ...)
    in an ASCII [image] string are skipped: decoding the string and
    decoding what is left of it without them give the same outcome. *)
Theorem b64decode_skips_foreign data :
  base64.isascii data = true ->
  base64.b64decode (PStr data) = base64.b64decode (PStr (only_base64 data)).
Proof.
  intros Hascii. unfold base64.b64decode, base64.a2b_base64.
  by rewrite Hascii, isascii_only_base64, a2b_loop_only_base64.
Qed.

(** The first call of a run whose image decodes. *)
Lemma img2img_first_call client_task_id params w image_bytes :
  base64.b64decode (dict_get params "image") = Return image_bytes ->
  exists rest,
    log (snd (img2img IMG2IMG_PROMPT_TEMPLATE client_task_id params w)) =
      log w ++ UploadImage image_bytes :: rest.
Proof.
  intros Hd.
  destruct (upload_image image_bytes (server w)) as [[resp|e] s1] eqn:Hu.
  - rewrite (img2img_uploaded _ _ _ _ _ _ _ Hd Hu). simpl.
    destruct (img2img_prompt _ _ _) as [prompt_json|e]; [|by exists []].
    unfold try_finally, await. simpl.
    destruct (queue_prompt _ _ _) as [r s2].
    destruct (clean_file _ _ _) as [[v|e] s3]; simpl;
      rewrite <- !app_assoc; eauto.
  - unfold img2img, mbind, task_bind, lift, await. simpl.
    rewrite Hd, Hu. by exists [].
Qed.

(** X8. [b64decode] undoes the standard encoding: when the [image] entry
    is the base64 text of a payload, whatever the payload (the empty one
    included), [img2img] decodes it back and its first call uploads exactly
    these bytes. *)
Theorem img2img_uploads_encoded_payload client_task_id params w data :
  dict_get params "image" = PStr (b64encode data) ->
  base64.b64decode (dict_get params "image") = Return data /\
  exists rest,
    log (snd (img2img IMG2IMG_PROMPT_TEMPLATE client_task_id params w)) =
      log w ++ UploadImage data :: rest.
Proof.
  intros Himage.
  assert (Hd : base64.b64decode (dict_get params "image") = Return data).
  { rewrite Himage. unfold base64.b64decode, base64.a2b_base64.
    by rewrite isascii_b64encode, a2b_loop_b64encode. }
  split; [done|]. by apply img2img_first_call.
Qed.

(** X9. The decoded payload has at most three bytes for every four
    characters of the [image] string. *)
Theorem b64decode_length data image_bytes :
  base64.b64decode (PStr data) = Return image_bytes ->
  (4 * length image_bytes <= 3 * String.length data)%nat.
Proof.
  unfold base64.b64decode, base64.a2b_base64.
  destruct (base64.isascii data); [|done].
  intros Hloop%a2b_loop_length. simpl in Hloop. lia.
Qed.

(** X10. No JSON object in a rendered prompt has the same key twice, however
    often the substituted text repeats a key. *)
Theorem prompts_distinct_keys text image prompt_json :
  text2img_prompt TEXT2IMG_PROMPT_TEMPLATE text = Return prompt_json \/
  img2img_prompt IMG2IMG_PROMPT_TEMPLATE text image = Return prompt_json ->
  distinct_keys prompt_json = true.
Proof.
  unfold text2img_prompt, img2img_prompt, mbind, outcome_bind.
  intros [Hr|Hr]; revert Hr;
    (destruct (Template.substitute _ _) as [prompt_str|e]; [|done]);
    apply loads_distinct_keys.
Qed.

(** X11. Inside a JSON string, text free of double quotes, backslashes and
    control characters is data: the scanner copies it and goes on right
    after it, so that it can neither end the string nor start an escape;
    between two double quotes it is read back as it is. *)
Theorem plain_text_is_data text :
  plain_text text = true ->
  (forall rest acc,
     json.scanstring (text +:+ rest) acc = json.scanstring rest (acc +:+ text)) /\
  json.loads (q "'" +:+ text +:+ q "'") = Return (json.JStr text).
Proof.
  intros Hplain. split.
  - intros rest acc. by apply scanstring_copies.
  - apply (loads_at_depth 1 _ _ EmptyString); [|done].
    cbn [q String.append json.skip_whitespace]. simpl.
    rewrite scanstring_copies by done. done.
Qed.

End ImagePayload.

(** ** These properties on the demonstration backend *)

Section DemoRuns.

Import Demo.

Lemma img2img_image_not_text_witness :
  img2img IMG2IMG_PROMPT_TEMPLATE 9 {["text" := PStr "make it winter"]}
    (idle None None None) =
  (Raise TypeError, idle None None None).
Proof.
  apply (img2img_image_not_text IMG2IMG_PROMPT_TEMPLATE 9
           {["text" := PStr "make it winter"]} (idle None None None)).
  left. reflexivity.
Defined.

Lemma img2img_returns_witness :
  exists image_bytes resp s1 prompt_json s2 v,
    base64.b64decode (dict_get (request "make it winter" "QUJD") "image") =
      Return image_bytes /\
    upload_image image_bytes (server (idle None None None)) = (Return resp, s1) /\
    img2img_prompt IMG2IMG_PROMPT_TEMPLATE
      (dict_get (request "make it winter" "QUJD") "text") (image_path resp) =
      Return prompt_json /\
    queue_prompt 9 prompt_json s1 = (Return (9, 0%nat), s2) /\
    clean_file true (image_path resp) s2 =
      (Return v, DemoServer [] [9] stored None None None) /\
    [UploadImage ABC;
     QueuePrompt 9 (img2img_job "make it winter" "inputs/img123.png");
     CleanFile true "inputs/img123.png"] =
    [] ++ [UploadImage image_bytes;
           QueuePrompt 9 prompt_json;
           CleanFile true (image_path resp)].
Proof.
  apply (img2img_returns IMG2IMG_PROMPT_TEMPLATE 9
           (request "make it winter" "QUJD") (idle None None None) (9, 0%nat)
           (World (DemoServer [] [9] stored None None None)
              [UploadImage ABC;
               QueuePrompt 9 (img2img_job "make it winter" "inputs/img123.png");
               CleanFile true "inputs/img123.png"])).
  vm_compute. reflexivity.
Defined.

Lemma b64decode_skips_foreign_witness :
  base64.b64decode (PStr "QU JD ") =
  base64.b64decode (PStr (only_base64 "QU JD ")).
Proof. apply b64decode_skips_foreign. vm_compute. reflexivity. Defined.

Lemma img2img_uploads_encoded_payload_witness :
  base64.b64decode (dict_get (request "make it winter" "QUJD") "image") =
    Return ABC /\
  exists rest,
    log (snd (img2img IMG2IMG_PROMPT_TEMPLATE 9
                (request "make it winter" "QUJD") (idle None None None))) =
      [] ++ UploadImage ABC :: rest.
Proof.
  apply (img2img_uploads_encoded_payload IMG2IMG_PROMPT_TEMPLATE 9
           (request "make it winter" "QUJD") (idle None None None) ABC).
  vm_compute. reflexivity.
Defined.

Lemma b64decode_length_witness :
  (4 * length ["A"; "B"]%byte <= 3 * String.length "QUI=")%nat.
Proof.
  apply (b64decode_length "QUI=" ["A"; "B"]%byte). vm_compute. reflexivity.
Defined.

Lemma prompts_distinct_keys_witness :
  distinct_keys
    (json.JDict
       [("6", json.JDict
                [("class_type", json.JStr "CLIPTextEncode");
                 ("inputs", json.JDict [("text", json.JStr "7")])])]) = true.
Proof.
  apply (prompts_distinct_keys TEXT2IMG_PROMPT_TEMPLATE IMG2IMG_PROMPT_TEMPLATE
           (PStr (q "fox', 'text': '7")) "a.png").
  left. vm_compute. reflexivity.
Defined.

Lemma plain_text_is_data_witness :
  (forall rest acc,
     json.scanstring ("a red fox" +:+ rest) acc =
     json.scanstring rest (acc +:+ "a red fox")) /\
  json.loads (q "'" +:+ "a red fox" +:+ q "'") = Return (json.JStr "a red fox").
Proof. apply (plain_text_is_data "a red fox"). vm_compute. reflexivity. Defined.

End DemoRuns.
